(** * clash-mate: the gfwlist provider (mate/gfwlist.go)

  A shallow embedding of the rule classifier, the rule-set builder,
  the renderer and the refresh cycle of [gfwlistProvider], with the
  properties stated for them.

  Go strings are byte sequences: they are modelled as [string], whose
  characters are the 256 values of [ascii].  A Go function that can
  panic returns in the [go] monad. *)

From Stdlib Require Import ZArith Ascii String List Bool Lia.
From stdpp Require Import base gmap strings list pretty.

Local Open Scope string_scope.
Local Open Scope Z_scope.
Local Open Scope list_scope.

(** ** Go runtime results *)

(** A computation either returns or panics (no [recover] occurs anywhere
  in the package, so a panic ends the goroutine and the process). *)
Inductive go (A : Type) : Type :=
| Ret (a : A)
| Panic (msg : string).
Arguments Ret {A} a.
Arguments Panic {A} msg.

Global Instance go_ret : MRet go := fun A a => Ret a.
Global Instance go_bind : MBind go := fun A B k m =>
match m with
| Ret a => k a
| Panic msg => Panic msg
end.

(** Go's [error] values: a message, possibly wrapping another error
  ([fmt.Errorf] with the verb [%w]). *)
Inductive error : Type :=
| errorString (msg : string)
| wrapError (msg : string) (inner : error).

Definition Error (e : error) : string :=
match e with
| errorString msg => msg
| wrapError msg _ => msg
end.

Definition Unwrap (e : error) : option error :=
match e with
| errorString _ => None
| wrapError _ inner => Some inner
end.

(** ** Package [strings] *)

Module strings.

Definition len (s : string) : Z := Z.of_nat (String.length s).

(** [s[i:]] for [0 <= i <= len(s)], as used by the library itself. *)
Fixpoint drop_bytes (n : nat) (s : string) : string :=
  match n, s with
  | O, _ => s
  | S n', String _ s' => drop_bytes n' s'
  | S _, EmptyString => EmptyString
  end.

Fixpoint take_bytes (n : nat) (s : string) : string :=
  match n, s with
  | S n', String c s' => String c (take_bytes n' s')
  | _, _ => EmptyString
  end.

Definition HasPrefix (s prefix : string) : bool := String.prefix prefix s.

(** [len(s) >= len(suffix) && s[len(s)-len(suffix):] == suffix] *)
Definition HasSuffix (s suffix : string) : bool :=
  (String.length suffix <=? String.length s)%nat
  && String.eqb (drop_bytes (String.length s - String.length suffix) s) suffix.

Fixpoint IndexByte (s : string) (c : ascii) : option nat :=
  match s with
  | EmptyString => None
  | String c' s' =>
      if Ascii.eqb c' c then Some O else S <$> IndexByte s' c
  end.

Definition ContainsByte (s : string) (c : ascii) : bool :=
  match IndexByte s c with Some _ => true | None => false end.

(** Index of the first instance of [substr] in [s]. *)
Fixpoint Index (s substr : string) : option nat :=
  if String.prefix substr s then Some O
  else match s with
       | EmptyString => None
       | String _ s' => S <$> Index s' substr
       end.

Fixpoint LastIndex (s substr : string) : option nat :=
  match s with
  | EmptyString => if String.prefix substr s then Some O else None
  | String _ s' =>
      match LastIndex s' substr with
      | Some i => Some (S i)
      | None => if String.prefix substr s then Some O else None
      end
  end.

Definition Contains (s substr : string) : bool :=
  match Index s substr with Some _ => true | None => false end.

(** [Cut] slices [s] around the first instance of [sep]. *)
Definition Cut (s sep : string) : string * string * bool :=
  match Index s sep with
  | Some i => (take_bytes i s, drop_bytes (i + String.length sep) s, true)
  | None => (s, EmptyString, false)
  end.

(** Non-overlapping instances of a non-empty [substr]. *)
Fixpoint Count_fuel (fuel : nat) (s substr : string) : nat :=
  match fuel with
  | O => O
  | S fuel' =>
      match Index s substr with
      | Some i => S (Count_fuel fuel' (drop_bytes (i + String.length substr) s) substr)
      | None => O
      end
  end.
Definition Count (s substr : string) : nat :=
  Count_fuel (S (String.length s)) s substr.

(** The cutsets of this package are ASCII, for which the library trims
    byte by byte ([trimLeftASCII], [trimLeftByte]). *)
Fixpoint TrimLeft (s cutset : string) : string :=
  match s with
  | EmptyString => EmptyString
  | String c s' => if ContainsByte cutset c then TrimLeft s' cutset else s
  end.

Fixpoint TrimRight (s cutset : string) : string :=
  match s with
  | EmptyString => EmptyString
  | String c s' =>
      match TrimRight s' cutset with
      | EmptyString => if ContainsByte cutset c then EmptyString else String c EmptyString
      | r => String c r
      end
  end.

Definition Trim (s cutset : string) : string :=
  TrimRight (TrimLeft s cutset) cutset.

(** [genSplit(s, sep, 0, -1)] for a non-empty [sep]: every piece
    between two instances of [sep]; [Count(s, sep) + 1] pieces. *)
Fixpoint genSplit (fuel : nat) (s sep : string) : list string :=
  match fuel with
  | O => [s]
  | S fuel' =>
      match Index s sep with
      | Some i =>
          take_bytes i s
            :: genSplit fuel' (drop_bytes (i + String.length sep) s) sep
      | None => [s]
      end
  end.
Definition Split (s sep : string) : list string :=
  genSplit (S (String.length s)) s sep.

Fixpoint Join (elems : list string) (sep : string) : string :=
  match elems with
  | [] => EmptyString
  | [x] => x
  | x :: rest => x +:+ sep +:+ Join rest sep
  end.

End strings.

(** ** Bytes *)

Definition byte_val (c : ascii) : Z := Z.of_N (N_of_ascii c).

Definition in_range (lo hi c : ascii) : bool :=
  (byte_val lo <=? byte_val c) && (byte_val c <=? byte_val hi).

Definition is_digit (c : ascii) : bool := in_range "0" "9" c.
Definition is_lower (c : ascii) : bool := in_range "a" "z" c.
Definition is_upper (c : ascii) : bool := in_range "A" "Z" c.
Definition is_alnum (c : ascii) : bool := is_lower c || is_upper c || is_digit c.

(** ** Package [net]: [ParseIP] (the textual parser of go1.17 to go1.19) *)

Module net.

Definition IP := list Z.

Definition IPv4len : nat := 4.
Definition IPv6len : nat := 16.
Definition big : Z := 16777215.

(** [dtoi]: the decimal number at the start of [s], the number of bytes
    it takes, and whether there is one ([n >= big] fails). *)
Fixpoint dtoi_loop (s : string) (n : Z) (i : nat) : Z * nat * bool :=
  match s with
  | String c s' =>
      if is_digit c then
        let n := n * 10 + (byte_val c - byte_val "0") in
        if big <=? n then (big, i, false) else dtoi_loop s' n (S i)
      else if Nat.eqb i 0 then (0, O, false) else (n, i, true)
  | EmptyString => if Nat.eqb i 0 then (0, O, false) else (n, i, true)
  end.
Definition dtoi (s : string) : Z * nat * bool := dtoi_loop s 0 O.

Definition hex_val (c : ascii) : option Z :=
  if is_digit c then Some (byte_val c - byte_val "0")
  else if in_range "a" "f" c then Some (byte_val c - byte_val "a" + 10)
  else if in_range "A" "F" c then Some (byte_val c - byte_val "A" + 10)
  else None.

Fixpoint xtoi_loop (s : string) (n : Z) (i : nat) : Z * nat * bool :=
  match s with
  | String c s' =>
      match hex_val c with
      | Some d =>
          let n := n * 16 + d in
          if big <=? n then (0, i, false) else xtoi_loop s' n (S i)
      | None => if Nat.eqb i 0 then (0, i, false) else (n, i, true)
      end
  | EmptyString => if Nat.eqb i 0 then (0, i, false) else (n, i, true)
  end.
Definition xtoi (s : string) : Z * nat * bool := xtoi_loop s 0 O.

(** The four octets of a dotted-decimal address; a component with a
    leading zero is refused. *)
Fixpoint parseIPv4_loop (count : nat) (i : nat) (s : string) (p : list Z) : option (list Z) :=
  match count with
  | O => if String.eqb s "" then Some p else None
  | S count' =>
      if String.eqb s "" then None
      else
        s1 ← (if Nat.ltb 0 i
              then match s with
                   | String "." s' => Some s'
                   | _ => None
                   end
              else Some s);
        let '(n, c, ok) := dtoi s1 in
        if negb ok || (255 <? n) then None
        else if Nat.ltb 1 c && strings.HasPrefix s1 "0" then None
        else parseIPv4_loop count' (S i) (strings.drop_bytes c s1) (p ++ [n])
  end.

Definition v4InV6Prefix : list Z := [0; 0; 0; 0; 0; 0; 0; 0; 0; 0; 255; 255].

Definition parseIPv4 (s : string) : option IP :=
  p ← parseIPv4_loop IPv4len O s [];
  Some (v4InV6Prefix ++ p).

(** State of the loop of [parseIPv6] when it is left: the bytes written
    so far (their number is the index [i]), the ellipsis and the rest of
    the input. *)
Fixpoint parseIPv6_loop (fuel : nat) (ip : list Z) (ellipsis : option nat) (s : string)
  : option (list Z * option nat * string) :=
  match fuel with
  | O => Some (ip, ellipsis, s)
  | S fuel' =>
      let i := length ip in
      if negb (Nat.ltb i IPv6len) then Some (ip, ellipsis, s)
      else
        let '(n, c, ok) := xtoi s in
        if negb ok || (65535 <? n) then None
        else if strings.HasPrefix (strings.drop_bytes c s) "." then
          if bool_decide (ellipsis = None) && negb (Nat.eqb i (IPv6len - IPv4len)) then None
          else if Nat.ltb IPv6len (i + IPv4len) then None
          else
            ip4 ← parseIPv4 s;
            Some (ip ++ drop 12 ip4, ellipsis, "")
        else
          let ip := ip ++ [Z.shiftr n 8; Z.land n 255] in
          let i := length ip in
          let s := strings.drop_bytes c s in
          match s with
          | EmptyString => Some (ip, ellipsis, s)
          | String c0 s1 =>
              if negb (Ascii.eqb c0 ":") || String.eqb s1 "" then None
              else
                match s1 with
                | String ":" s2 =>
                    match ellipsis with
                    | Some _ => None
                    | None =>
                        if String.eqb s2 "" then Some (ip, Some i, s2)
                        else parseIPv6_loop fuel' ip (Some i) s2
                    end
                | _ => parseIPv6_loop fuel' ip ellipsis s1
                end
          end
  end.

Definition parseIPv6 (s : string) : option IP :=
  let lead := strings.HasPrefix s "::" in
  let ellipsis := if lead then Some O else None in
  let s := if lead then strings.drop_bytes 2 s else s in
  if lead && String.eqb s "" then Some (replicate IPv6len 0)
  else
    '(ip, ellipsis, s) ← parseIPv6_loop 9 [] ellipsis s;
    if negb (String.eqb s "") then None
    else
      let i := length ip in
      if Nat.ltb i IPv6len then
        match ellipsis with
        | None => None
        | Some e => Some (take e ip ++ replicate (IPv6len - i) 0 ++ drop e ip)
        end
      else
        match ellipsis with
        | Some _ => None
        | None => Some ip
        end.

(** The first ['.'] or [':'] of [s] selects the parser. *)
Fixpoint ParseIP_scan (rest s : string) : option IP :=
  match rest with
  | EmptyString => None
  | String "." _ => parseIPv4 s
  | String ":" _ => parseIPv6 s
  | String _ rest' => ParseIP_scan rest' s
  end.
Definition ParseIP (s : string) : option IP := ParseIP_scan s s.

End net.

(** ** Package [net/url]: [QueryUnescape], [Parse] and [Hostname]
    (go1.17 to go1.21; the user information of a URL is checked but not
    kept, no field of it is read by this package) *)

Module url.

Inductive encoding : Type :=
| encodePath
| encodeHost
| encodeZone
| encodeUserPassword
| encodeQueryComponent
| encodeFragment.

#[global] Instance encoding_eq_dec : EqDecision encoding.
Proof. solve_decision. Defined.

Definition is_host_mode (mode : encoding) : bool :=
  match mode with
  | encodeHost | encodeZone => true
  | _ => false
  end.

(** [shouldEscape(c, mode)] for the modes [encodeHost] and [encodeZone],
    the only ones [unescape] asks it for. *)
Definition shouldEscapeHost (c : ascii) : bool :=
  if is_alnum c then false
  else if strings.ContainsByte "!$&'()*+,;=:[]<>" c || Ascii.eqb c (ascii_of_nat 34) then false
  else if strings.ContainsByte "-_.~" c then false
  else true.

Definition unhex (c : ascii) : Z :=
  match net.hex_val c with
  | Some d => d
  | None => 0
  end.

Definition ishex (c : ascii) : bool :=
  match net.hex_val c with
  | Some _ => true
  | None => false
  end.

Definition byte_of (v : Z) : ascii := ascii_of_N (Z.to_N v).

(** [unescape]: [None] stands for its [EscapeError] and
    [InvalidHostError] results. *)
Fixpoint unescape (s : string) (mode : encoding) : option string :=
  match s with
  | EmptyString => Some EmptyString
  | String "%" rest =>
      match rest with
      | String a (String b rest') =>
          if negb (ishex a && ishex b) then None
          else
            let v := Z.lor (Z.shiftl (unhex a) 4) (unhex b) in
            let is25 := Ascii.eqb a "2" && Ascii.eqb b "5" in
            if bool_decide (mode = encodeHost) && (unhex a <? 8) && negb is25 then None
            else if bool_decide (mode = encodeZone) && negb is25
                    && negb (v =? 32) && shouldEscapeHost (byte_of v) then None
            else String (byte_of v) <$> unescape rest' mode
      | _ => None
      end
  | String "+" rest =>
      String (if bool_decide (mode = encodeQueryComponent) then " "%char else "+"%char)
        <$> unescape rest mode
  | String c rest =>
      if is_host_mode mode && (byte_val c <? 128) && shouldEscapeHost c then None
      else String c <$> unescape rest mode
  end.

Definition QueryUnescape (s : string) : option string :=
  unescape s encodeQueryComponent.

Record URL : Type := mkURL {
  Scheme : string;
  Opaque : string;
  Host : string;
  Path : string;
  ForceQuery : bool;
  RawQuery : string;
  Fragment : string
}.

Fixpoint all_bytes (f : ascii -> bool) (s : string) : bool :=
  match s with
  | EmptyString => true
  | String c s' => f c && all_bytes f s'
  end.

Definition stringContainsCTLByte (s : string) : bool :=
  negb (all_bytes (fun b => negb ((byte_val b <? 32) || (byte_val b =? 127))) s).

(** [getScheme]: the scheme and the rest, or [None] for
    "missing protocol scheme". *)
Fixpoint getScheme_loop (rest : string) (i : nat) (rawURL : string) : option (string * string) :=
  match rest with
  | EmptyString => Some (EmptyString, rawURL)
  | String c rest' =>
      if is_lower c || is_upper c then getScheme_loop rest' (S i) rawURL
      else if is_digit c || strings.ContainsByte "+-." c then
        if Nat.eqb i 0 then Some (EmptyString, rawURL)
        else getScheme_loop rest' (S i) rawURL
      else if Ascii.eqb c ":" then
        if Nat.eqb i 0 then None
        else Some (strings.take_bytes i rawURL, rest')
      else Some (EmptyString, rawURL)
  end.
Definition getScheme (rawURL : string) : option (string * string) :=
  getScheme_loop rawURL O rawURL.

Definition lower_byte (c : ascii) : ascii :=
  if is_upper c then ascii_of_N (N_of_ascii c + 32) else c.

Fixpoint ToLower (s : string) : string :=
  match s with
  | EmptyString => EmptyString
  | String c s' => String (lower_byte c) (ToLower s')
  end.

Definition validOptionalPort (port : string) : bool :=
  match port with
  | EmptyString => true
  | String c digits => Ascii.eqb c ":" && all_bytes is_digit digits
  end.

Definition validUserinfo (s : string) : bool :=
  all_bytes (fun r => is_alnum r || strings.ContainsByte "-._:~!$&'()*+,;=%@" r) s.

Definition parseHost (host : string) : option string :=
  if strings.HasPrefix host "[" then
    match strings.LastIndex host "]" with
    | None => None
    | Some i =>
        let colonPort := strings.drop_bytes (S i) host in
        if negb (validOptionalPort colonPort) then None
        else
          match strings.Index (strings.take_bytes i host) "%25" with
          | Some zone =>
              host1 ← unescape (strings.take_bytes zone host) encodeHost;
              host2 ← unescape (strings.drop_bytes zone (strings.take_bytes i host)) encodeZone;
              host3 ← unescape (strings.drop_bytes i host) encodeHost;
              Some (host1 +:+ host2 +:+ host3)
          | None => unescape host encodeHost
          end
    end
  else
    match strings.LastIndex host ":" with
    | Some i =>
        if negb (validOptionalPort (strings.drop_bytes i host)) then None
        else unescape host encodeHost
    | None => unescape host encodeHost
    end.

(** The host of an authority; the user information before the last
    ['@'] must be valid and unescape. *)
Definition parseAuthority (authority : string) : option string :=
  match strings.LastIndex authority "@" with
  | None => parseHost authority
  | Some i =>
      host ← parseHost (strings.drop_bytes (S i) authority);
      let userinfo := strings.take_bytes i authority in
      if negb (validUserinfo userinfo) then None
      else if negb (strings.Contains userinfo ":") then
        _ ← unescape userinfo encodeUserPassword; Some host
      else
        let '(username, password, _) := strings.Cut userinfo ":" in
        _ ← unescape username encodeUserPassword;
        _ ← unescape password encodeUserPassword;
        Some host
  end.

(** [parse(rawURL, false)] *)
Definition parse (rawURL : string) : option URL :=
  if stringContainsCTLByte rawURL then None
  else if String.eqb rawURL "*" then Some (mkURL "" "" "" "*" false "" "")
  else
    '(scheme, rest) ← getScheme rawURL;
    let scheme := ToLower scheme in
    let '(rest, force, rawQuery) :=
      if strings.HasSuffix rest "?" && Nat.eqb (strings.Count rest "?") 1
      then (strings.take_bytes (String.length rest - 1) rest, true, EmptyString)
      else let '(r, q, _) := strings.Cut rest "?" in (r, false, q) in
    if negb (strings.HasPrefix rest "/") && negb (String.eqb scheme "")
    then Some (mkURL scheme rest "" "" force rawQuery "")
    else if negb (strings.HasPrefix rest "/")
            && strings.Contains (fst (fst (strings.Cut rest "/"))) ":"
    then None
    else
      '(host, rest) ←
        (if (negb (String.eqb scheme "") || negb (strings.HasPrefix rest "///"))
            && strings.HasPrefix rest "//"
         then
           let authority := strings.drop_bytes 2 rest in
           let '(authority, rest) :=
             match strings.Index authority "/" with
             | Some i => (strings.take_bytes i authority, strings.drop_bytes i authority)
             | None => (authority, EmptyString)
             end in
           host ← parseAuthority authority; Some (host, rest)
         else Some (EmptyString, rest));
      path ← unescape rest encodePath;
      Some (mkURL scheme "" host path force rawQuery "").

Definition Parse (rawURL : string) : option URL :=
  let '(u, frag, _) := strings.Cut rawURL "#" in
  url ← parse u;
  fragment ← unescape frag encodeFragment;
  Some (mkURL (Scheme url) (Opaque url) (Host url) (Path url)
              (ForceQuery url) (RawQuery url) fragment).

Definition splitHostPort (hostPort : string) : string * string :=
  let '(host, port) :=
    match strings.LastIndex hostPort ":" with
    | Some colon =>
        if validOptionalPort (strings.drop_bytes colon hostPort)
        then (strings.take_bytes colon hostPort, strings.drop_bytes (S colon) hostPort)
        else (hostPort, EmptyString)
    | None => (hostPort, EmptyString)
    end in
  if strings.HasPrefix host "[" && strings.HasSuffix host "]"
  then (strings.take_bytes (String.length host - 2) (strings.drop_bytes 1 host), port)
  else (host, port).

Definition Hostname (u : URL) : string := fst (splitHostPort (Host u)).

End url.

(** ** The library functions the package calls

    The general results hold for every implementation of the library
    functions that [tryGetDomain], [parseToList] and [update] call; the
    scenarios are evaluated with the models above. *)

Record Response : Type := mkResponse {
  StatusCode : Z;
  (** the bytes that reading [resp.Body] to its end delivers *)
  Body : string
}.

Class GoLibrary : Type := {
  (** [url.QueryUnescape]; on an error Go returns the empty string *)
  url_QueryUnescape : string -> option string;
  (** [url.Parse]; [None] when its error is not nil *)
  url_Parse : string -> option url.URL;
  (** [net.ParseIP]; [None] for nil *)
  net_ParseIP : string -> option net.IP;
  (** [bufio.NewScanner(base64.NewDecoder(base64.StdEncoding, rc))]: the
      lines that [Scan] delivers, then the value of [Err()] *)
  scan_lines : string -> list string * option error;
  (** [yaml.Marshal] of the map with the one key [payload] *)
  yaml_Marshal : list string -> string + error
}.

(** The outcome of one call of [http.Get]. *)
Definition http_Get : Type := string -> Response + error.

(** ** mate/gfwlist.go *)

Definition gfwlistDownloadURL : string :=
  "https://raw.githubusercontent.com/gfwlist/gfwlist/master/gfwlist.txt".

(** [time.Duration] counts nanoseconds. *)
Definition time_Hour : Z := 3600 * 1000000000.
Definition defaultInterval : Z := time_Hour.

Inductive t : Type :=
| unknown
| ip
| domain
| domainKeyword.

#[global] Instance t_eq_dec : EqDecision t.
Proof. solve_decision. Defined.

(** [m[v]] of a [map[string]bool]: false for a missing key. *)
Definition map_get (m : gmap string bool) (v : string) : bool :=
  default false (m !! v).

(** One iteration of the loop of [uniqueList] on the map [m] and the
    slice [newList]. *)
Definition unique_step (st : gmap string bool * list string) (v : string)
  : gmap string bool * list string :=
  let '(m, newList) := st in
  if map_get m v || String.eqb v "" then (m, newList)
  else (<[v := true]> m, newList ++ [v]).

Definition uniqueList (list : list string) : Datatypes.list string :=
  snd (fold_left unique_step list (∅, [])).

Record gfwlistProvider : Type := mkProvider {
  interval : Z;
  rules : string
}.

(** [Handle] writes the published document to the response. *)
Definition Handle (s : gfwlistProvider) : string := rules s.

Definition renderClashRules (domainList ipList domainKeywordList : list string) : list string :=
  let rules := [] in
  let rules :=
    fold_left (fun rules domainKeyword => rules ++ ["DOMAIN-KEYWORD," +:+ domainKeyword])
              domainKeywordList rules in
  let rules :=
    fold_left (fun rules ip => rules ++ ["SRC-IP-CIDR," +:+ ip +:+ "/32"]) ipList rules in
  let rules :=
    fold_left (fun rules domain => rules ++ ["DOMAIN-SUFFIX," +:+ domain]) domainList rules in
  rules.

Definition download (get : http_Get) : string + error :=
  match get gfwlistDownloadURL with
  | inr err => inr (wrapError (Error err) err)
  | inl resp =>
      if negb (StatusCode resp =? 200) then
        let body := Body resp in
        inr (errorString ("download gfwlist failed, code: " +:+ pretty (StatusCode resp)
                            +:+ ", body: " +:+ body))
      else inl (Body resp)
  end.

Definition isIP `{GoLibrary} (v : string) : bool :=
  match net_ParseIP v with
  | Some _ => true
  | None => false
  end.

(** [pairs[len(pairs)-2:]] *)
Definition last_two (pairs : list string) : go (list string) :=
  let lo := Z.of_nat (length pairs) - 2 in
  if lo <? 0 then Panic "runtime error: slice bounds out of range"
  else Ret (drop (Z.to_nat lo) pairs).

(** The body of [tryGetDomain], before its deferred function runs. *)
Definition tryGetDomain_body `{GoLibrary} (v : string) (full : bool) : go (t * string) :=
  let v := if negb (strings.HasPrefix v "http://") then "http://" +:+ v else v in
  let v := default "" (url_QueryUnescape v) in
  match url_Parse v with
  | None => Ret (unknown, "")
  | Some parse =>
      if isIP (url.Hostname parse) then Ret (ip, url.Hostname parse)
      else if full then Ret (domain, url.Hostname parse)
      else
        let pairs := strings.Split (url.Hostname parse) "." in
        tail ← last_two pairs;
        Ret (domain, strings.Join tail ".")
  end.

(** The deferred function trims the named result [vv] on a return. *)
Definition tryGetDomain `{GoLibrary} (v : string) (full : bool) : go (t * string) :=
  '(typ, vv) ← tryGetDomain_body v full;
  Ret (typ, strings.Trim vv "*").

Definition tryGetDomainOrIP `{GoLibrary} (v : string) : go (t * string) :=
  tryGetDomain v false.

(** [strings.Split(v, ".")[0]] *)
Definition first_label (v : string) : go string :=
  match strings.Split v "." with
  | x :: _ => Ret x
  | [] => Panic "runtime error: index out of range"
  end.

Definition parseLine `{GoLibrary} (line : string) : go (t * string) :=
  if strings.HasPrefix line "|" then
    let line := strings.TrimLeft line "|" in
    let line := strings.TrimLeft line "http://" in
    tryGetDomain line true
  else if strings.HasPrefix line "||" || strings.HasPrefix line "http://" then
    let line := strings.TrimLeft line "|" in
    let line := strings.TrimLeft line "http://" in
    let line := strings.TrimLeft line "https://" in
    tryGetDomainOrIP line
  else if strings.HasPrefix line "." then
    let line := strings.TrimLeft line "." in
    '(typ, v) ← tryGetDomainOrIP line;
    if strings.HasSuffix v "*" then
      label ← first_label v;
      Ret (domainKeyword, label)
    else Ret (typ, v)
  else if strings.Contains line "." then
    tryGetDomain line true
  else if isIP line then Ret (ip, line)
  else Ret (unknown, "").

(** A line that is empty or starts with one of [! [ / @] is skipped. *)
Definition skipped (line : string) : bool :=
  match line with
  | EmptyString => true
  | String c _ => strings.ContainsByte "![/@" c
  end.

(** The scanning loop of [parseToList] over the lines delivered. *)
Fixpoint parseToList_loop `{GoLibrary} (lines : list string)
    (domainList ipList domainKeywordList : list string)
  : go (list string * list string * list string) :=
  match lines with
  | [] => Ret (domainList, ipList, domainKeywordList)
  | line :: lines' =>
      if skipped line then
        parseToList_loop lines' domainList ipList domainKeywordList
      else
        '(typ, v) ← parseLine line;
        match typ with
        | ip => parseToList_loop lines' domainList (ipList ++ [v]) domainKeywordList
        | domain => parseToList_loop lines' (domainList ++ [v]) ipList domainKeywordList
        | domainKeyword => parseToList_loop lines' domainList ipList (domainKeywordList ++ [v])
        | unknown => parseToList_loop lines' domainList ipList domainKeywordList
        end
  end.

Definition parseToList `{GoLibrary} (rc : string)
  : go (list string * list string * list string * option error) :=
  let '(lines, err) := scan_lines rc in
  '(domainList, ipList, domainKeywordList) ← parseToList_loop lines [] [] [];
  Ret (uniqueList domainList, uniqueList ipList, domainKeywordList, err).

(** One refresh cycle: the provider afterwards and the error returned. *)
Definition update `{GoLibrary} (get : http_Get) (s : gfwlistProvider)
  : go (gfwlistProvider * option error) :=
  match download get with
  | inr err => Ret (s, Some err)
  | inl rc =>
      '(domains, ips, domainKeywords, err) ← parseToList rc;
      match err with
      | Some err => Ret (s, Some err)
      | None =>
          let rules := renderClashRules domains ips domainKeywords in
          match yaml_Marshal rules with
          | inr err => Ret (s, Some err)
          | inl b => Ret (mkProvider (interval s) b, None)
          end
      end
  end.

(** What [start] itself does that can be observed: the line its closure
    logs after every cycle and the durations it arms its timer with. The
    lines that [tryGetDomain] logs for a URL that does not parse are not
    part of the trace. *)
Inductive event : Type :=
| LogFailed (err : error)
| LogSuccess
| NewTimer (d : Z)
| TimerReset (d : Z).

(** The closure [update] of [start]. *)
Definition start_update `{GoLibrary} (get : http_Get) (s : gfwlistProvider)
  : go (gfwlistProvider * event) :=
  '(s', err) ← update get s;
  match err with
  | Some err => Ret (s', LogFailed err)
  | None => Ret (s', LogSuccess)
  end.

(** [for range timer.C]: one iteration per tick. *)
Fixpoint start_loop `{GoLibrary} (interval : Z) (ticks : list http_Get)
    (s : gfwlistProvider) (trace : list event) : go (gfwlistProvider * list event) :=
  match ticks with
  | [] => Ret (s, trace)
  | get :: ticks' =>
      '(s', ev) ← start_update get s;
      start_loop interval ticks' s' (trace ++ [ev; TimerReset interval])
  end.

(** [start] never returns; it is observed for the ticks of [ticks], each
    with the network as it is at that cycle. *)
Definition start `{GoLibrary} (first : http_Get) (ticks : list http_Get) (s : gfwlistProvider)
  : go (gfwlistProvider * list event) :=
  '(s, ev) ← start_update first s;
  let interval := interval s in
  let interval := if interval <=? 0 then defaultInterval else interval in
  start_loop interval ticks s [ev; NewTimer interval].

(** [newGfwlistProvider]: the zero value of the struct (no interval, no
    document yet); the goroutine it launches runs [start]. *)
Definition newGfwlistProvider : gfwlistProvider := mkProvider 0 "".

(** The durations a trace arms the timer with, in order. *)
Definition timer_durations (trace : list event) : list Z :=
  omap (fun ev => match ev with
                  | NewTimer d | TimerReset d => Some d
                  | _ => None
                  end) trace.

Definition LF : string := String (ascii_of_nat 10) "".

(** The library as modelled above. The decoder, the scanner and the
    marshaller are not modelled: a body is its own lines and a document
    its own rules, joined by line feeds; [scanErr] and [marshalErr] are
    the errors that the scanner and the marshaller report, if any. *)
Definition library_with (scanErr marshalErr : option error) : GoLibrary := {|
  url_QueryUnescape := url.QueryUnescape;
  url_Parse := url.Parse;
  net_ParseIP := net.ParseIP;
  scan_lines := fun rc => (strings.Split rc LF, scanErr);
  yaml_Marshal := fun rules =>
    match marshalErr with
    | Some err => inr err
    | None => inl (strings.Join rules LF)
    end
|}.

Definition go_library : GoLibrary := library_with None None.

(** Networks and a document for the scenarios. *)
Definition unreachable : http_Get :=
  fun _ => inr (errorString "dial tcp: connection refused").

Definition responds (code : Z) (body : string) : http_Get :=
  fun _ => inl (mkResponse code body).

Definition published : gfwlistProvider :=
  mkProvider 0 "payload: [DOMAIN-SUFFIX,old.example.com]".

Definition scan_error : error := errorString "illegal base64 data at input byte 8".
Definition marshal_error : error := errorString "yaml: cannot marshal".

Definition sample_document : string :=
  strings.Join ["! comment"; "||a.com"; ".ads.a.com"; "1.2.3.4"; "||a.com"; "b.example.org"; "1.2.3.4"] LF.

(** The URL text that [tryGetDomain] hands to [url.Parse]. *)
Definition parsed_text `{GoLibrary} (v : string) : string :=
  default "" (url_QueryUnescape
                (if negb (strings.HasPrefix v "http://") then "http://" +:+ v else v)).

(** The classification of every line that is not skipped, in order. *)
Fixpoint classify_all `{GoLibrary} (lines : list string) : go (list (t * string)) :=
  match lines with
  | [] => Ret []
  | line :: lines' =>
      if skipped line then classify_all lines'
      else
        c ← parseLine line;
        cs ← classify_all lines';
        Ret (c :: cs)
  end.

(** The values classified with the tag [typ], in order. *)
Definition values (typ : t) (cs : list (t * string)) : list string :=
  (filter (fun c => c.1 = typ) cs).*2.

(** The entries of [l] that are not empty and occur at no earlier
    position: first occurrence kept, order preserved, empty strings
    dropped. *)
Definition first_occurrences (l : list string) : list string :=
  concat (imap (fun i v => if bool_decide (v ≠ "" ∧ v ∉ take i l) then [v] else []) l).

(** * Properties *)

(** ** The library models on examples *)

Example ParseIP_v4 : net.ParseIP "1.2.3.4" = Some [0;0;0;0;0;0;0;0;0;0;255;255;1;2;3;4].
Proof. reflexivity. Qed.
Example ParseIP_bad : net.ParseIP "1.2.3" = None /\ net.ParseIP "1.2.3.256" = None
  /\ net.ParseIP "01.2.3.4" = None /\ net.ParseIP "foo" = None /\ net.ParseIP "ads.example.com" = None
  /\ net.ParseIP "1.2.3.4.5" = None /\  net.ParseIP "1::2::3" = None /\ net.ParseIP ":1" = None
  /\ net.ParseIP "1:2:3:4:5:6:7:8:9" = None /\ net.ParseIP "1:2:3:4:5:6:7::8" = None.
Proof. repeat split; reflexivity. Qed.
Example ParseIP_v6 : net.ParseIP "::1" = Some [0;0;0;0;0;0;0;0;0;0;0;0;0;0;0;1]
  /\ net.ParseIP "::" = Some (replicate 16 0)
  /\ net.ParseIP "fe80::1:2" = Some [254;128;0;0;0;0;0;0;0;0;0;0;0;1;0;2]
  /\ net.ParseIP "1:2:3:4:5:6:7:8" = Some [0;1;0;2;0;3;0;4;0;5;0;6;0;7;0;8]
  /\ net.ParseIP "::ffff:1.2.3.4" = Some [0;0;0;0;0;0;0;0;0;0;255;255;1;2;3;4]
  /\ net.ParseIP "1::" = Some [0;1;0;0;0;0;0;0;0;0;0;0;0;0;0;0].
Proof. repeat split; reflexivity. Qed.
Example url_ex1 : url.Hostname <$> url.Parse "http://ads.example.com" = Some "ads.example.com".
Proof. reflexivity. Qed.
Example url_ex2 : url.Parse "http://racker.example.org^" = None.
Proof. reflexivity. Qed.
Example url_ex3 : url.Hostname <$> url.Parse "http://foo" = Some "foo"
  /\ url.Hostname <$> url.Parse "http://" = Some ""
  /\ url.Hostname <$> url.Parse "" = Some ""
  /\ url.Hostname <$> url.Parse "http://u:p@Example.COM:8080/a/b?q=1#frag" = Some "Example.COM"
  /\ url.Hostname <$> url.Parse "http://[::1]:80/" = Some "::1"
  /\ url.Parse "http://a b/" = None
  /\ url.Parse "http://a.com/%zz" = None
  /\ url.Parse "http://a.com:x/" = None
  /\ url.Hostname <$> url.Parse "http://*.example.com/" = Some "*.example.com"
  /\ url.QueryUnescape "a%2Fb+c" = Some "a/b c"
  /\ url.QueryUnescape "100%" = None.
Proof. repeat split; reflexivity. Qed.
Example parseLine_ip : @parseLine go_library "1.2.3.4" = Ret (ip, "1.2.3.4").
Proof. vm_compute. reflexivity. Qed.
Example parseLine_url : @parseLine go_library "sub.a.com/path" = Ret (domain, "sub.a.com").
Proof. vm_compute. reflexivity. Qed.
Example parseLine_keyword : @parseLine go_library "keyword" = Ret (unknown, "").
Proof. vm_compute. reflexivity. Qed.
Example uniqueList_example : uniqueList ["a"; ""; "b"; "a"; "c"; "b"] = ["a"; "b"; "c"].
Proof. vm_compute. reflexivity. Qed.
Example pretty_status : pretty 404 = "404".
Proof. vm_compute. reflexivity. Qed.

(** ** Strings *)

Lemma TrimRight_last s cutset r c :
  strings.TrimRight s cutset = r +:+ String c "" ->
  strings.ContainsByte cutset c = false.
Proof.
  revert r. induction s as [|a s IH]; intros r; simpl.
  - destruct r; discriminate.
  - destruct (strings.TrimRight s cutset) as [|b r'] eqn:E.
    + destruct (strings.ContainsByte cutset a) eqn:Ea.
      * destruct r; discriminate.
      * destruct r as [|x r]; simpl; [intros [= <-]; done|].
        destruct r; discriminate.
    + destruct r as [|x r]; simpl; [discriminate|].
      intros [= -> Hr]. eapply IH. eauto.
Qed.

Lemma drop_bytes_last s :
  (1 <= String.length s)%nat ->
  exists r c, s = r +:+ String c "" /\
    strings.drop_bytes (String.length s - 1) s = String c "".
Proof.
  induction s as [|a s IH]; simpl; [lia|]. intros _.
  destruct (decide (String.length s = 0%nat)) as [H0|Hn].
  - destruct s; [|discriminate]. exists "", a. done.
  - destruct IH as (r & c & Hr & Hd); [lia|].
    exists (String a r), c. split; [rewrite Hr at 1; reflexivity|].
    replace (String.length s - 0)%nat with (S (String.length s - 1)) by lia.
    exact Hd.
Qed.

Lemma HasSuffix_byte s c :
  strings.HasSuffix s (String c "") = true -> exists r, s = r +:+ String c "".
Proof.
  unfold strings.HasSuffix. intros [Hl He]%andb_true_iff.
  apply Nat.leb_le in Hl.
  change (String.length (String c "")) with 1%nat in Hl, He.
  destruct (drop_bytes_last s Hl) as (r & c' & -> & Hd).
  rewrite Hd in He. apply String.eqb_eq in He. injection He as ->. eauto.
Qed.

Lemma Trim_no_star_suffix s : strings.HasSuffix (strings.Trim s "*") "*" = false.
Proof.
  destruct (strings.HasSuffix _ _) eqn:E; [|done].
  apply HasSuffix_byte in E as [r Hr].
  apply TrimRight_last in Hr. done.
Qed.

(** ** [uniqueList] *)

Section unique.

Implicit Types (l : list string) (v : string) (m : gmap string bool).

Lemma uniqueList_unfold l : uniqueList l = (fold_left unique_step l (∅, [])).2.
Proof. reflexivity. Qed.

Lemma map_get_insert m v w :
  map_get (<[v := true]> m) w = bool_decide (v = w) || map_get m w.
Proof.
  unfold map_get. rewrite lookup_insert.
  case_decide; case_bool_decide; simplify_eq; done.
Qed.

(** After the loop has read [l], the map marks the entries that are in
    the new list, and these are the non-empty entries of [l]. *)
Lemma unique_state l :
  let st := fold_left unique_step l (∅, []) in
  (∀ w, map_get st.1 w = true ↔ w ∈ st.2) ∧
  (∀ w, w ∈ st.2 ↔ w ∈ l ∧ w ≠ "").
Proof.
  induction l as [|v l IH] using rev_ind; simpl.
  - split; intros w.
    + unfold map_get. rewrite lookup_empty. simpl. split; [done|].
      intros ?%elem_of_nil; done.
    + split; [intros ?%elem_of_nil; done|intros [?%elem_of_nil _]; done].
  - rewrite fold_left_app. simpl in *.
    destruct (fold_left unique_step l (∅, [])) as [m newList]. simpl in *.
    destruct IH as [IHm IHl].
    destruct (map_get m v) eqn:Hm; simpl.
    + split; [done|]. intros w. rewrite IHl, elem_of_app, list_elem_of_singleton.
      split; [tauto|]. intros [[?| ->] ?]; [done|].
      apply IHl, IHm, Hm.
    + destruct (String.eqb_spec v "") as [->|Hne]; simpl.
      * split; [done|]. intros w. rewrite IHl, elem_of_app, list_elem_of_singleton.
        split; [tauto|]. intros [[?| ->] ?]; done.
      * split; intros w.
        -- rewrite map_get_insert, elem_of_app, list_elem_of_singleton, <- IHm.
           case_bool_decide; simplify_eq; simpl; [tauto|].
           split; [tauto|]. intros [?|?]; [done|congruence].
        -- rewrite !elem_of_app, !list_elem_of_singleton, IHl.
           split; [intros [[??]| ->]; tauto|]. intros [[?| ->] ?]; tauto.
Qed.

Lemma elem_of_uniqueList l w : w ∈ uniqueList l ↔ w ∈ l ∧ w ≠ "".
Proof. apply (unique_state l). Qed.

(** The loop, one entry at a time: an entry is appended when it is not
    empty and has not been read before. *)
Lemma uniqueList_snoc l v :
  uniqueList (l ++ [v]) =
  uniqueList l ++ (if bool_decide (v ≠ "" ∧ v ∉ l) then [v] else []).
Proof.
  rewrite !uniqueList_unfold, fold_left_app. cbn [fold_left].
  pose proof (unique_state l) as [Hm Hl]. cbn zeta in Hm, Hl.
  destruct (fold_left unique_step l (∅, [])) as [m newList].
  cbn [fst snd unique_step] in *.
  destruct (map_get m v) eqn:Hv; cbn [orb snd].
  - apply Hm, Hl in Hv as [??]. rewrite bool_decide_eq_false_2 by tauto.
    by rewrite app_nil_r.
  - destruct (String.eqb_spec v "") as [->|Hne]; cbn [snd].
    + rewrite bool_decide_eq_false_2 by tauto. by rewrite app_nil_r.
    + rewrite bool_decide_eq_true_2; [done|]. split; [done|].
      intros Hin. assert (map_get m v = true) by (apply Hm, Hl; done). congruence.
Qed.

Lemma uniqueList_nil : uniqueList [] = [].
Proof. reflexivity. Qed.

Lemma first_occurrences_snoc l v :
  first_occurrences (l ++ [v]) =
  first_occurrences l ++ (if bool_decide (v ≠ "" ∧ v ∉ l) then [v] else []).
Proof.
  unfold first_occurrences. rewrite imap_app, concat_app. f_equal.
  - f_equal. apply imap_ext. intros i x Hi.
    rewrite take_app_le; [done|]. apply lookup_lt_Some in Hi. lia.
  - simpl. rewrite Nat.add_0_r, take_app_length, app_nil_r. done.
Qed.

Lemma uniqueList_first_occurrences l : uniqueList l = first_occurrences l.
Proof.
  induction l as [|v l IH] using rev_ind; [done|].
  by rewrite uniqueList_snoc, first_occurrences_snoc, IH.
Qed.

Lemma uniqueList_NoDup l : NoDup (uniqueList l).
Proof.
  induction l as [|v l IH] using rev_ind; [constructor|].
  rewrite uniqueList_snoc. case_bool_decide as Hv; [|by rewrite app_nil_r].
  apply NoDup_app. split; [done|]. split; [|apply NoDup_singleton].
  intros w Hw ->%list_elem_of_singleton. apply elem_of_uniqueList in Hw. tauto.
Qed.

Lemma uniqueList_no_empty l : "" ∉ uniqueList l.
Proof. rewrite elem_of_uniqueList. tauto. Qed.

Lemma uniqueList_fixed l : NoDup l → "" ∉ l → uniqueList l = l.
Proof.
  induction l as [|v l IH] using rev_ind; [done|].
  intros (Hl & Hv & _)%NoDup_app Hne.
  rewrite uniqueList_snoc, IH; [|done|set_solver].
  rewrite bool_decide_eq_true_2; [done|]. split.
  - intros ->. apply Hne. set_solver.
  - intros Hin. apply (Hv v Hin). set_solver.
Qed.

End unique.

(** ** The classifier *)

Section classifier.

Context `{GoLibrary}.

Ltac go_simpl := unfold mbind, go_bind, mret, go_ret in *; cbn beta iota in *.

Lemma tryGetDomain_body_tag v full typ vv :
  tryGetDomain_body v full = Ret (typ, vv) → typ ≠ domainKeyword.
Proof.
  unfold tryGetDomain_body.
  destruct (url_Parse _) as [parse|]; [|by intros [= <- _]].
  destruct (isIP _); [by intros [= <- _]|].
  destruct full; [by intros [= <- _]|].
  destruct (last_two _); go_simpl; [by intros [= <- _]|intros [=]].
Qed.

(** What [tryGetDomain] returns is trimmed: it does not end in ["*"]. *)
Lemma tryGetDomain_trimmed v full typ vv :
  tryGetDomain v full = Ret (typ, vv) →
  typ ≠ domainKeyword ∧ strings.HasSuffix vv "*" = false.
Proof.
  unfold tryGetDomain.
  destruct (tryGetDomain_body v full) as [[typ' vv']|] eqn:E; go_simpl; [|intros [=]].
  intros [= <- <-]. split; [by eapply tryGetDomain_body_tag|].
  apply Trim_no_star_suffix.
Qed.

Lemma parseLine_tag line typ v : parseLine line = Ret (typ, v) → typ ≠ domainKeyword.
Proof.
  unfold parseLine, tryGetDomainOrIP.
  destruct (strings.HasPrefix line "|"); [by intros [? _]%tryGetDomain_trimmed|].
  destruct (_ || _); [by intros [? _]%tryGetDomain_trimmed|].
  destruct (strings.HasPrefix line ".").
  { destruct (tryGetDomain _ false) as [[typ' v']|] eqn:E; go_simpl; [|intros [=]].
    apply tryGetDomain_trimmed in E as [Htyp ->]. by intros [= <- _]. }
  destruct (strings.Contains line "."); [by intros [? _]%tryGetDomain_trimmed|].
  destruct (isIP line); by intros [= <- _].
Qed.

Lemma values_cons typ c cs :
  values typ (c :: cs) = (if decide (c.1 = typ) then [c.2] else []) ++ values typ cs.
Proof. unfold values. rewrite filter_cons. by case_decide. Qed.

(** The scanning loop appends to each bucket the values of its tag. *)
Lemma parseToList_loop_values lines domainList ipList domainKeywordList :
  parseToList_loop lines domainList ipList domainKeywordList =
  cs ← classify_all lines;
  Ret (domainList ++ values domain cs, ipList ++ values ip cs,
       domainKeywordList ++ values domainKeyword cs).
Proof.
  revert domainList ipList domainKeywordList.
  induction lines as [|line lines IH]; intros d i k; cbn [parseToList_loop classify_all].
  - go_simpl. unfold values. simpl. by rewrite !app_nil_r.
  - destruct (skipped line); [apply IH|].
    destruct (parseLine line) as [[typ v]|]; go_simpl; [|done].
    destruct typ; rewrite IH; destruct (classify_all lines); go_simpl; try done;
      rewrite !values_cons; cbn [fst snd];
      repeat case_decide; try done; by rewrite <- ?app_assoc.
Qed.

Lemma classify_all_tags lines cs c :
  classify_all lines = Ret cs → c ∈ cs → c.1 ≠ domainKeyword.
Proof.
  revert cs. induction lines as [|line lines IH]; intros cs; cbn [classify_all].
  - go_simpl. intros [= <-] ?%elem_of_nil. done.
  - destruct (skipped line); [apply IH|].
    destruct (parseLine line) as [[typ v]|] eqn:E; go_simpl; [|intros [=]].
    destruct (classify_all lines) as [cs'|]; go_simpl; [|intros [=]].
    intros [= <-] [->|Hin]%elem_of_cons; [|by eapply IH].
    by apply parseLine_tag in E.
Qed.

Lemma values_absent typ cs : (∀ c, c ∈ cs → c.1 ≠ typ) → values typ cs = [].
Proof.
  induction cs as [|c cs IH]; [done|]. intros Hcs.
  rewrite values_cons, IH; [|intros; apply Hcs; by right].
  rewrite decide_False; [done|]. apply Hcs. by left.
Qed.

Lemma values_domainKeyword lines cs :
  classify_all lines = Ret cs → values domainKeyword cs = [].
Proof.
  intros Hcs. apply values_absent. intros c Hc. by eapply classify_all_tags.
Qed.

End classifier.

(** ** Helper equations of the builder and the renderer *)

(** A loop that appends [f v] for every [v] is a map. *)
Lemma fold_left_append_map (f : string → string) (l acc : list string) :
  fold_left (λ rules v, rules ++ [f v]) l acc = acc ++ (f <$> l).
Proof.
  revert acc. induction l as [|v l IH]; intros acc; simpl.
  - by rewrite app_nil_r.
  - by rewrite IH, <- app_assoc.
Qed.

Lemma renderClashRules_blocks (domainList ipList domainKeywordList : list string) :
  renderClashRules domainList ipList domainKeywordList =
    ((λ v, "DOMAIN-KEYWORD," +:+ v) <$> domainKeywordList)
    ++ ((λ v, "SRC-IP-CIDR," +:+ v +:+ "/32") <$> ipList)
    ++ ((λ v, "DOMAIN-SUFFIX," +:+ v) <$> domainList).
Proof.
  unfold renderClashRules.
  rewrite (fold_left_append_map (λ v, "DOMAIN-KEYWORD," +:+ v)).
  rewrite (fold_left_append_map (λ v, "SRC-IP-CIDR," +:+ v +:+ "/32")).
  rewrite (fold_left_append_map (λ v, "DOMAIN-SUFFIX," +:+ v)).
  by rewrite app_nil_l, <- app_assoc.
Qed.

(** What [parseToList] returns, in terms of the classified lines. *)
Lemma parseToList_values `{GoLibrary} rc domains ips domainKeywords err :
  parseToList rc = Ret (domains, ips, domainKeywords, err) →
  ∃ cs, classify_all (scan_lines rc).1 = Ret cs ∧
    domains = uniqueList (values domain cs) ∧
    ips = uniqueList (values ip cs) ∧
    domainKeywords = values domainKeyword cs ∧
    err = (scan_lines rc).2.
Proof.
  unfold parseToList. destruct (scan_lines rc) as [lines e]. cbn [fst snd].
  rewrite parseToList_loop_values.
  destruct (classify_all lines) as [cs|]; unfold mbind, go_bind; cbn beta iota; [|intros [=]].
  intros [= <- <- <- <-]. exists cs. done.
Qed.

(** ** The rule set *)

(** C9. Deduplication is idempotent and keeps the order: applying
    [uniqueList] twice gives what applying it once gives, and a list
    without duplicates and without empty strings is returned unchanged. *)
Theorem uniqueList_idempotent :
  (∀ l : list string, uniqueList (uniqueList l) = uniqueList l) ∧
  (∀ l : list string, NoDup l → "" ∉ l → uniqueList l = l).
Proof.
  split.
  - intros l. apply uniqueList_fixed; [apply uniqueList_NoDup|apply uniqueList_no_empty].
  - apply uniqueList_fixed.
Qed.

Lemma uniqueList_idempotent_witness :
  NoDup ["b.com"; "a.com"; "1.2.3.4"] ∧ ("" ∉ ["b.com"; "a.com"; "1.2.3.4"]) ∧
  uniqueList ["b.com"; "a.com"; "1.2.3.4"] = ["b.com"; "a.com"; "1.2.3.4"].
Proof.
  assert (Hnd : NoDup ["b.com"; "a.com"; "1.2.3.4"]) by (apply (bool_decide_unpack _); vm_compute; exact I).
  assert (Hne : "" ∉ ["b.com"; "a.com"; "1.2.3.4"]) by (apply (bool_decide_unpack _); vm_compute; exact I).
  split; [exact Hnd|]. split; [exact Hne|].
  exact (proj2 uniqueList_idempotent _ Hnd Hne).
Defined.

(** C3. When a document has been parsed, [domains] and [ips] hold the
    first occurrences of the values accumulated for their tag, in order,
    without a duplicate and without the empty string; [domainKeywords]
    holds the accumulated values as they are. *)
Theorem parseToList_ruleset `{GoLibrary} rc domains ips domainKeywords err :
  parseToList rc = Ret (domains, ips, domainKeywords, err) →
  ∃ cs, classify_all (scan_lines rc).1 = Ret cs ∧
    domains = first_occurrences (values domain cs) ∧ NoDup domains ∧ ("" ∉ domains) ∧
    ips = first_occurrences (values ip cs) ∧ NoDup ips ∧ ("" ∉ ips) ∧
    domainKeywords = values domainKeyword cs ∧
    err = (scan_lines rc).2.
Proof.
  unfold parseToList. destruct (scan_lines rc) as [lines e]. cbn [fst snd].
  rewrite parseToList_loop_values.
  destruct (classify_all lines) as [cs|]; unfold mbind, go_bind; cbn beta iota; [|intros [=]].
  intros [= <- <- <- <-]. exists cs.
  repeat split; auto using uniqueList_first_occurrences, uniqueList_NoDup, uniqueList_no_empty.
Qed.

(** C4. The rendering has one line for every entry: the keywords, then
    the addresses, then the domains, each block in the order of its
    bucket. *)
Theorem renderClashRules_order (domainList ipList domainKeywordList : list string) :
  renderClashRules domainList ipList domainKeywordList =
    ((λ v, "DOMAIN-KEYWORD," +:+ v) <$> domainKeywordList)
    ++ ((λ v, "SRC-IP-CIDR," +:+ v +:+ "/32") <$> ipList)
    ++ ((λ v, "DOMAIN-SUFFIX," +:+ v) <$> domainList) ∧
  length (renderClashRules domainList ipList domainKeywordList) =
    (length domainKeywordList + length ipList + length domainList)%nat.
Proof.
  assert (Happ : ∀ (f : string → string) l acc,
             fold_left (λ rules v, rules ++ [f v]) l acc = acc ++ (f <$> l)).
  { intros f l. induction l as [|v l IH]; intros acc; simpl.
    - by rewrite app_nil_r.
    - by rewrite IH, <- app_assoc. }
  assert (Heq : renderClashRules domainList ipList domainKeywordList =
    ((λ v, "DOMAIN-KEYWORD," +:+ v) <$> domainKeywordList)
    ++ ((λ v, "SRC-IP-CIDR," +:+ v +:+ "/32") <$> ipList)
    ++ ((λ v, "DOMAIN-SUFFIX," +:+ v) <$> domainList)).
  { unfold renderClashRules.
    rewrite (Happ (λ v, "DOMAIN-KEYWORD," +:+ v)).
    rewrite (Happ (λ v, "SRC-IP-CIDR," +:+ v +:+ "/32")).
    rewrite (Happ (λ v, "DOMAIN-SUFFIX," +:+ v)).
    by rewrite app_nil_l, <- app_assoc. }
  split; [exact Heq|].
  rewrite Heq, !length_app, !length_fmap. lia.
Qed.

(** C6. No line is classified as a domain keyword: [tryGetDomain] trims
    every ["*"] from the ends of the value before [parseLine] tests its
    suffix. The bucket of keywords of a parsed document is empty and no
    rendered line starts with ["DOMAIN-KEYWORD,"]. *)
Theorem parseLine_never_domainKeyword `{GoLibrary} :
  (∀ line v, parseLine line ≠ Ret (domainKeyword, v)) ∧
  (∀ rc domains ips domainKeywords err,
     parseToList rc = Ret (domains, ips, domainKeywords, err) →
     domainKeywords = [] ∧
     ∀ rule, rule ∈ renderClashRules domains ips domainKeywords →
             strings.HasPrefix rule "DOMAIN-KEYWORD," = false).
Proof.
  split.
  - intros line v Hl. by apply parseLine_tag in Hl.
  - intros rc domains ips domainKeywords err Hp.
    apply parseToList_values in Hp as (cs & Hcs & _ & _ & Hk & _).
    apply values_domainKeyword in Hcs. rewrite Hcs in Hk. subst domainKeywords.
    split; [done|]. intros rule.
    rewrite renderClashRules_blocks. simpl.
    rewrite elem_of_app, !list_elem_of_fmap.
    intros [(v & -> & _)|(v & -> & _)]; reflexivity.
Qed.

Lemma parseToList_ruleset_witness :
  @parseToList go_library sample_document
    = Ret (["a.com"; "b.example.org"], ["1.2.3.4"], [], None) ∧
  ∃ cs, @classify_all go_library (@scan_lines go_library sample_document).1 = Ret cs ∧
    ["a.com"; "b.example.org"] = first_occurrences (values domain cs) ∧
    NoDup ["a.com"; "b.example.org"] ∧ ("" ∉ ["a.com"; "b.example.org"]) ∧
    ["1.2.3.4"] = first_occurrences (values ip cs) ∧
    NoDup ["1.2.3.4"] ∧ ("" ∉ ["1.2.3.4"]) ∧
    [] = values domainKeyword cs ∧
    None = (@scan_lines go_library sample_document).2.
Proof.
  assert (Hp : @parseToList go_library sample_document
                 = Ret (["a.com"; "b.example.org"], ["1.2.3.4"], [], None))
    by (vm_compute; reflexivity).
  split; [exact Hp|].
  exact (@parseToList_ruleset go_library _ _ _ _ _ Hp).
Defined.

Lemma parseLine_never_domainKeyword_witness :
  @parseToList go_library sample_document
    = Ret (["a.com"; "b.example.org"], ["1.2.3.4"], [], None) ∧
  ([] : list string) = [] ∧
  ∀ rule, rule ∈ renderClashRules ["a.com"; "b.example.org"] ["1.2.3.4"] [] →
          strings.HasPrefix rule "DOMAIN-KEYWORD," = false.
Proof.
  assert (Hp : @parseToList go_library sample_document
                 = Ret (["a.com"; "b.example.org"], ["1.2.3.4"], [], None))
    by (vm_compute; reflexivity).
  split; [exact Hp|].
  exact (proj2 (@parseLine_never_domainKeyword go_library) _ _ _ _ _ Hp).
Defined.

(** ** The refresh cycle *)

(** C7. [download] succeeds exactly when the response has status 200,
    and then returns the body. For another status it fails with a
    message made of the status code and the body read; for a transport
    failure it fails with an error wrapping the transport error. *)
Theorem download_status (get : http_Get) :
  (∀ err, get gfwlistDownloadURL = inr err →
     download get = inr (wrapError (Error err) err)) ∧
  (∀ resp, get gfwlistDownloadURL = inl resp →
     ((∃ rc, download get = inl rc) ↔ StatusCode resp = 200) ∧
     (StatusCode resp = 200 → download get = inl (Body resp)) ∧
     (StatusCode resp ≠ 200 →
        download get =
          inr (errorString ("download gfwlist failed, code: " +:+ pretty (StatusCode resp)
                              +:+ ", body: " +:+ Body resp)))).
Proof.
  unfold download. split.
  - intros err ->. reflexivity.
  - intros resp ->. destruct (Z.eqb_spec (StatusCode resp) 200) as [->|Hne]; cbn [negb].
    + split; [split; [done|eauto]|]. split; [done|]. lia.
    + split; [split; [intros [rc [=]]|done]|]. split; [done|]. done.
Qed.

Lemma download_status_witness :
  download unreachable
    = inr (wrapError "dial tcp: connection refused"
                     (errorString "dial tcp: connection refused")) ∧
  download (responds 200 "fHxhLmNvbQo=") = inl "fHxhLmNvbQo=" ∧
  download (responds 404 "Not Found")
    = inr (errorString "download gfwlist failed, code: 404, body: Not Found").
Proof.
  split; [|split].
  - exact (proj1 (download_status unreachable) _ eq_refl).
  - exact (proj1 (proj2 (proj2 (download_status (responds 200 "fHxhLmNvbQo=")) _ eq_refl))
             eq_refl).
  - refine (proj2 (proj2 (proj2 (download_status (responds 404 "Not Found")) _ eq_refl)) _).
    vm_compute. discriminate.
Defined.

Section cycle.

Context `{GoLibrary}.

Lemma update_error get s s' err :
  update get s = Ret (s', Some err) → s' = s.
Proof.
  unfold update. destruct (download get) as [rc|e]; [|by intros [= <- _]].
  destruct (parseToList rc) as [[[[d i] k] [e|]]|]; unfold mbind, go_bind; cbn beta iota.
  - by intros [= <- _].
  - destruct (yaml_Marshal _); intros [=]. done.
  - intros [=].
Qed.

Lemma update_interval get s s' err :
  update get s = Ret (s', err) → interval s' = interval s.
Proof.
  destruct err as [e|]; [by intros ->%update_error|].
  unfold update. destruct (download get) as [rc|e]; [|intros [=]].
  destruct (parseToList rc) as [[[[d i] k] [e|]]|]; unfold mbind, go_bind; cbn beta iota.
  - intros [=].
  - destruct (yaml_Marshal _); intros [= <-]. done.
  - intros [=].
Qed.

Lemma start_update_interval get s s' ev :
  start_update get s = Ret (s', ev) →
  interval s' = interval s ∧ timer_durations [ev] = [].
Proof.
  unfold start_update.
  destruct (update get s) as [[s1 [e|]]|] eqn:E; unfold mbind, go_bind; cbn beta iota;
    intros [= <- <-]; (split; [by eapply update_interval|done]).
Qed.

(** Every iteration of the loop arms the timer once, with [d]. *)
Lemma start_loop_trace d ticks s trace s' trace' :
  start_loop d ticks s trace = Ret (s', trace') →
  timer_durations trace' = timer_durations trace ++ replicate (length ticks) d.
Proof.
  revert s trace. induction ticks as [|get ticks IH]; intros s trace; cbn [start_loop].
  - intros [= <- <-]. simpl. by rewrite app_nil_r.
  - destruct (start_update get s) as [[s1 ev]|] eqn:E; unfold mbind, go_bind; cbn beta iota;
      [|intros [=]].
    apply start_update_interval in E as [_ Hev].
    intros ->%IH. unfold timer_durations in *.
    rewrite omap_app, <- app_assoc. f_equal.
    change [ev; TimerReset d] with ([ev] ++ [TimerReset d]).
    rewrite omap_app, Hev. reflexivity.
Qed.

End cycle.

(** X19. A refresh cycle that returns an error leaves the provider, and
    so the document served, as it was. A cycle returns the wrapped
    transport error and the error of a status other than 200; when
    [parseToList] returns, it returns the error of the scanner, and
    otherwise the error of the marshaller. *)
Theorem update_failure_keeps_rules `{GoLibrary} (get : http_Get) (s : gfwlistProvider) :
  (∀ s' err, update get s = Ret (s', Some err) → s' = s ∧ Handle s' = Handle s) ∧
  (∀ err, get gfwlistDownloadURL = inr err →
     update get s = Ret (s, Some (wrapError (Error err) err))) ∧
  (∀ resp, get gfwlistDownloadURL = inl resp → StatusCode resp ≠ 200 →
     ∃ err, update get s = Ret (s, Some err)) ∧
  (∀ rc domains ips domainKeywords err,
     download get = inl rc →
     parseToList rc = Ret (domains, ips, domainKeywords, Some err) →
     update get s = Ret (s, Some err)) ∧
  (∀ rc domains ips domainKeywords err,
     download get = inl rc →
     parseToList rc = Ret (domains, ips, domainKeywords, None) →
     yaml_Marshal (renderClashRules domains ips domainKeywords) = inr err →
     update get s = Ret (s, Some err)).
Proof.
  split; [|split; [|split; [|split]]].
  - intros s' err ->%update_error. done.
  - intros err Hget. unfold update, download. by rewrite Hget.
  - intros resp Hget Hcode. unfold update, download. rewrite Hget.
    destruct (Z.eqb_spec (StatusCode resp) 200); [done|]. cbn [negb]. eauto.
  - intros rc d i k err Hd Hp. unfold update. rewrite Hd, Hp. reflexivity.
  - intros rc d i k err Hd Hp Hm. unfold update. rewrite Hd, Hp.
    unfold mbind, go_bind; cbn beta iota. by rewrite Hm.
Qed.

Lemma update_failure_keeps_rules_witness :
  @update go_library unreachable published
    = Ret (published, Some (wrapError "dial tcp: connection refused"
                                      (errorString "dial tcp: connection refused"))) ∧
  (∃ err, @update go_library (responds 503 "busy") published = Ret (published, Some err)) ∧
  @update (library_with (Some scan_error) None) (responds 200 sample_document) published
    = Ret (published, Some scan_error) ∧
  @update (library_with None (Some marshal_error)) (responds 200 sample_document) published
    = Ret (published, Some marshal_error) ∧
  Handle published = "payload: [DOMAIN-SUFFIX,old.example.com]".
Proof.
  split; [|split; [|split; [|split]]].
  - exact (proj1 (proj2 (@update_failure_keeps_rules go_library unreachable published))
             _ eq_refl).
  - refine (proj1 (proj2 (proj2
             (@update_failure_keeps_rules go_library (responds 503 "busy") published)))
             _ eq_refl _).
    vm_compute. discriminate.
  - refine (proj1 (proj2 (proj2 (proj2
             (@update_failure_keeps_rules (library_with (Some scan_error) None)
                (responds 200 sample_document) published))))
             sample_document ["a.com"; "b.example.org"] ["1.2.3.4"] [] _ eq_refl _).
    vm_compute. reflexivity.
  - refine (proj2 (proj2 (proj2 (proj2
             (@update_failure_keeps_rules (library_with None (Some marshal_error))
                (responds 200 sample_document) published))))
             sample_document ["a.com"; "b.example.org"] ["1.2.3.4"] [] _ eq_refl _ eq_refl).
    vm_compute. reflexivity.
  - reflexivity.
Defined.

(** C10. [start] arms its timer once after the first cycle and once
    after every later cycle, each time with the configured interval when
    that is positive and with the default of one hour otherwise. *)
Theorem start_effective_interval `{GoLibrary}
    (first : http_Get) (ticks : list http_Get) (s s' : gfwlistProvider) (trace : list event) :
  start first ticks s = Ret (s', trace) →
  timer_durations trace
    = replicate (S (length ticks)) (if 0 <? interval s then interval s else defaultInterval) ∧
  defaultInterval = 3600000000000.
Proof.
  intros Hs. split; [|reflexivity]. unfold start in Hs.
  destruct (start_update first s) as [[s1 ev]|] eqn:E; unfold mbind, go_bind in Hs;
    cbn beta iota in Hs; [|discriminate].
  apply start_update_interval in E as [Hi Hev].
  apply start_loop_trace in Hs. rewrite Hs, Hi.
  change [ev; NewTimer ?d] with ([ev] ++ [NewTimer d]).
  unfold timer_durations in *. rewrite omap_app, Hev. cbn [omap app replicate].
  destruct (Z.leb_spec (interval s) 0), (Z.ltb_spec 0 (interval s)); try lia; reflexivity.
Qed.

Lemma start_effective_interval_witness :
  (∃ s' trace,
     @start go_library unreachable [responds 200 sample_document; unreachable] published
       = Ret (s', trace) ∧
     timer_durations trace = [3600000000000; 3600000000000; 3600000000000]) ∧
  (∃ s' trace,
     @start go_library unreachable [responds 500 ""] (mkProvider 1000000000 "")
       = Ret (s', trace) ∧
     timer_durations trace = [1000000000; 1000000000]).
Proof.
  split.
  - destruct (@start go_library unreachable [responds 200 sample_document; unreachable] published)
      as [[s' trace]|] eqn:E; [|vm_compute in E; discriminate].
    exists s', trace. split; [reflexivity|].
    exact (proj1 (@start_effective_interval go_library _ _ _ _ _ E)).
  - destruct (@start go_library unreachable [responds 500 ""] (mkProvider 1000000000 ""))
      as [[s' trace]|] eqn:E; [|vm_compute in E; discriminate].
    exists s', trace. split; [reflexivity|].
    exact (proj1 (@start_effective_interval go_library _ _ _ _ _ E)).
Defined.

(** ** Scenarios of the classifier *)

(** C8. The line [".ads.example.com"] loses its leading dot, its host is
    ["ads.example.com"], and it is classified as the domain
    ["example.com"]. *)
Theorem parseLine_leading_dot :
  strings.TrimLeft ".ads.example.com" "." = "ads.example.com" ∧
  url.Hostname <$> url.Parse "http://ads.example.com" = Some "ads.example.com" ∧
  @parseLine go_library ".ads.example.com" = Ret (domain, "example.com").
Proof. repeat split; vm_compute; reflexivity. Qed.

(** C1. A line that starts with ["||"] also starts with ["|"]: the first
    branch of [parseLine] takes it and extracts the full host after
    trimming the bytes of ["http://"], so the branch for ["||"] with its
    reduction to two labels is never reached. *)
Theorem parseLine_double_bar :
  (∀ (L : GoLibrary) rest,
     parseLine ("||" +:+ rest)
     = tryGetDomain (strings.TrimLeft (strings.TrimLeft ("||" +:+ rest) "|") "http://") true) ∧
  @parseLine go_library "||sub.example.com" = Ret (domain, "sub.example.com") ∧
  @parseLine go_library "||tracker.example.org^" = Ret (unknown, "").
Proof.
  split; [|split; vm_compute; reflexivity].
  intros L rest. reflexivity.
Qed.

(** C5. [parseLine] panics on a line whose host has fewer than two
    labels when the reduction to two labels applies: [pairs[len(pairs)-2:]]
    is out of range. *)
Theorem parseLine_short_host_panics :
  @parseLine go_library ".foo" = Panic "runtime error: slice bounds out of range" ∧
  @parseLine go_library "..." = Panic "runtime error: slice bounds out of range" ∧
  @parseLine go_library "http://foo" = Panic "runtime error: slice bounds out of range".
Proof. repeat split; vm_compute; reflexivity. Qed.

(** * Further properties *)

(** ** Strings: prefixes, indexes and splitting *)

Section string_facts.

Implicit Types (s r sub sep : string) (c : ascii).

Ltac app_cons :=
  repeat first
    [ progress change (String.append (String ?a ?s) ?r) with (String a (String.append s r))
    | progress change (String.append EmptyString ?r) with r ].

Lemma string_app_assoc s r sub : (s +:+ r) +:+ sub = s +:+ (r +:+ sub).
Proof. induction s as [|a s IH]; [done|]. app_cons. by rewrite IH. Qed.

Lemma string_app_nil_r s : s +:+ "" = s.
Proof. induction s as [|a s IH]; [done|]. app_cons. by rewrite IH. Qed.

Lemma take_drop_bytes n s : strings.take_bytes n s +:+ strings.drop_bytes n s = s.
Proof.
  revert s. induction n as [|n IH]; intros [|a s]; try done.
  cbn [strings.take_bytes strings.drop_bytes]. app_cons. by rewrite IH.
Qed.

Lemma length_drop_bytes n s :
  String.length (strings.drop_bytes n s) = (String.length s - n)%nat.
Proof. revert s. induction n as [|n IH]; intros [|a s]; simpl; auto. Qed.

Lemma prefix_nil s : String.prefix "" s = true.
Proof. by destruct s. Qed.

Lemma prefix_split sub s :
  String.prefix sub s = true → s = sub +:+ strings.drop_bytes (String.length sub) s.
Proof.
  revert s. induction sub as [|a sub IH]; intros s; [done|].
  destruct s as [|b s]; simpl; [done|].
  destruct (ascii_dec a b) as [->|]; [|done]. intros Hp. app_cons. by rewrite <- IH.
Qed.

Lemma prefix_length sub s :
  String.prefix sub s = true → (String.length sub <= String.length s)%nat.
Proof.
  revert s. induction sub as [|a sub IH]; intros s; simpl; [lia|].
  destruct s as [|b s]; simpl; [intros [=]|]. destruct (ascii_dec a b); [|intros [=]].
  intros ?%IH. lia.
Qed.

Lemma prefix_take sub n s :
  String.prefix sub (strings.take_bytes n s) = true → String.prefix sub s = true.
Proof.
  revert n s. induction sub as [|a sub IH]; intros n s; [intros _; apply prefix_nil|].
  destruct n as [|n], s as [|b s]; simpl; try (intros [=]; fail).
  destruct (ascii_dec a b); [apply IH|intros [=]].
Qed.

(** The first instance of [sub] starts at the index found and lies in [s]. *)
Lemma Index_Some s sub i :
  strings.Index s sub = Some i →
  s = strings.take_bytes i s +:+ sub +:+ strings.drop_bytes (i + String.length sub) s ∧
  (i + String.length sub <= String.length s)%nat.
Proof.
  revert i. induction s as [|a s IH]; intros i; cbn [strings.Index].
  - destruct (String.prefix sub "") eqn:Hp; [|done]. intros [= <-].
    split; [by apply prefix_split|by apply prefix_length].
  - destruct (String.prefix sub (String a s)) eqn:Hp.
    + intros [= <-]. split; [by apply prefix_split|by apply prefix_length].
    + destruct (strings.Index s sub) as [j|] eqn:Hj; [|done].
      intros [= <-]. destruct (IH j eq_refl) as [Hs Hl]. split; [|simpl; lia].
      cbn [strings.take_bytes strings.drop_bytes Nat.add]. app_cons. by rewrite <- Hs.
Qed.

(** No instance of [sub] lies before the first one. *)
Lemma Index_take s sub i :
  sub ≠ "" → strings.Index s sub = Some i →
  strings.Index (strings.take_bytes i s) sub = None.
Proof.
  intros Hsub. revert i. induction s as [|a s IH]; intros i; cbn [strings.Index].
  - destruct (String.prefix sub "") eqn:Hp; [|done]. intros [= <-]. simpl.
    destruct sub; done.
  - destruct (String.prefix sub (String a s)) eqn:Hp.
    + intros [= <-]. simpl. destruct sub; done.
    + destruct (strings.Index s sub) as [j|] eqn:Hj; [|done].
      intros [= <-]. cbn [strings.take_bytes strings.Index].
      rewrite (IH j eq_refl).
      destruct (String.prefix sub (String a (strings.take_bytes j s))) eqn:Hp'; [|done].
      apply (prefix_take sub (S j) (String a s)) in Hp'. congruence.
Qed.

Lemma Join_cons x l sep :
  l ≠ [] → strings.Join (x :: l) sep = x +:+ sep +:+ strings.Join l sep.
Proof. destruct l; done. Qed.

Lemma Join_app l1 l2 sep :
  l1 ≠ [] → l2 ≠ [] →
  strings.Join (l1 ++ l2) sep = strings.Join l1 sep +:+ sep +:+ strings.Join l2 sep.
Proof.
  intros H1 H2. induction l1 as [|x l1 IH]; [done|].
  destruct l1 as [|y l1].
  - cbn [app]. by rewrite Join_cons.
  - change (strings.Join ((x :: y :: l1) ++ l2) sep)
      with (x +:+ sep +:+ strings.Join ((y :: l1) ++ l2) sep).
    rewrite IH by done.
    change (strings.Join (x :: y :: l1) sep) with (x +:+ sep +:+ strings.Join (y :: l1) sep).
    by rewrite !string_app_assoc.
Qed.

(** Splitting around a non-empty separator: the pieces joined by the
    separator give the string back, no piece holds the separator, and
    there is a second piece exactly when the string holds it. *)
Lemma genSplit_facts fuel s sep :
  sep ≠ "" → (String.length s < fuel)%nat →
  let pieces := strings.genSplit fuel s sep in
  strings.Join pieces sep = s ∧
  Forall (λ x, strings.Contains x sep = false) pieces ∧
  ((2 <= length pieces)%nat ↔ strings.Contains s sep = true) ∧
  (1 <= length pieces)%nat.
Proof.
  intros Hsep. revert s. induction fuel as [|fuel IH]; intros s Hf; [lia|].
  cbn [strings.genSplit]. unfold strings.Contains at 2.
  destruct (strings.Index s sep) as [i|] eqn:Hi; cbn zeta.
  - destruct (Index_Some _ _ _ Hi) as [Hs Hl].
    assert (1 <= String.length sep)%nat by (destruct sep; [done|simpl; lia]).
    destruct (IH (strings.drop_bytes (i + String.length sep) s)) as (HJ & HF & _ & Hn).
    { rewrite length_drop_bytes. lia. }
    split; [|split; [|split]].
    + rewrite Join_cons; [by rewrite HJ, <- Hs|].
      intros Hnil. rewrite Hnil in Hn. simpl in Hn. lia.
    + constructor; [|done]. unfold strings.Contains. by rewrite Index_take.
    + simpl. split; [done|lia].
    + simpl. lia.
  - split; [done|]. split; [|split; [|simpl; lia]].
    + constructor; [|done]. unfold strings.Contains. by rewrite Hi.
    + simpl. split; [lia|done].
Qed.

Lemma Split_facts s sep :
  sep ≠ "" →
  strings.Join (strings.Split s sep) sep = s ∧
  Forall (λ x, strings.Contains x sep = false) (strings.Split s sep) ∧
  ((2 <= length (strings.Split s sep))%nat ↔ strings.Contains s sep = true).
Proof.
  intros Hsep. destruct (genSplit_facts (S (String.length s)) s sep Hsep) as (?&?&?&?); [lia|].
  done.
Qed.

End string_facts.

(** ** Trimming *)

Section trim_facts.

Implicit Types (s r cutset : string) (c : ascii).

Lemma TrimLeft_head s cutset c r :
  strings.TrimLeft s cutset = String c r → strings.ContainsByte cutset c = false.
Proof.
  induction s as [|a s IH]; simpl; [done|].
  destruct (strings.ContainsByte cutset a) eqn:Ha; [done|]. by intros [= <- _].
Qed.

Lemma TrimRight_head s cutset c r :
  strings.TrimRight s cutset = String c r → ∃ r', s = String c r'.
Proof.
  destruct s as [|a s]; simpl; [done|].
  destruct (strings.TrimRight s cutset).
  - destruct (strings.ContainsByte cutset a); [done|]. intros [= <- _]. eauto.
  - intros [= <- _]. eauto.
Qed.

Lemma HasPrefix_byte s c :
  strings.HasPrefix s (String c "") = true → ∃ r, s = String c r.
Proof.
  unfold strings.HasPrefix. destruct s as [|a s]; simpl; [done|].
  destruct (ascii_dec c a) as [->|]; [eauto|done].
Qed.

Lemma Trim_no_star_prefix s : strings.HasPrefix (strings.Trim s "*") "*" = false.
Proof.
  destruct (strings.HasPrefix _ _) eqn:E; [|done].
  apply HasPrefix_byte in E as [r Hr]. unfold strings.Trim in Hr.
  destruct (TrimRight_head _ _ _ _ Hr) as [r' Hr'].
  by apply TrimLeft_head in Hr'.
Qed.

Lemma TrimLeft_skip s cutset c :
  strings.ContainsByte cutset c = true →
  strings.TrimLeft (String c s) cutset = strings.TrimLeft s cutset.
Proof. intros Hc. simpl. by rewrite Hc. Qed.

Lemma TrimLeft_stop s cutset c :
  strings.ContainsByte cutset c = false →
  strings.TrimLeft (String c s) cutset = String c s.
Proof. intros Hc. simpl. by rewrite Hc. Qed.

Lemma ContainsByte_single c a :
  strings.ContainsByte (String c "") a = Ascii.eqb c a.
Proof. unfold strings.ContainsByte. simpl. by destruct (Ascii.eqb c a). Qed.

Lemma TrimLeft_no_prefix s c :
  strings.HasPrefix s (String c "") = false →
  strings.TrimLeft s (String c "") = s.
Proof.
  unfold strings.HasPrefix. destruct s as [|a s]; [done|]. simpl.
  rewrite ContainsByte_single.
  destruct (ascii_dec c a) as [->|Hne].
  - destruct s; intros [=].
  - intros _. destruct (Ascii.eqb_spec c a); [done|done].
Qed.

End trim_facts.

(** ** The classifier: where it panics and what it returns *)

Section classifier_more.

Context `{GoLibrary}.

Ltac go_step := unfold mbind, go_bind, mret, go_ret; cbn beta iota.

Lemma last_two_cases (pairs : list string) :
  (∃ msg, last_two pairs = Panic msg ∧ (length pairs < 2)%nat) ∨
  (∃ x y, last_two pairs = Ret [x; y] ∧ (2 <= length pairs)%nat ∧
          pairs = take (length pairs - 2) pairs ++ [x; y]).
Proof.
  unfold last_two. destruct (Z.ltb_spec (Z.of_nat (length pairs) - 2) 0) as [Hlt|Hge].
  - left. eexists. split; [done|lia].
  - right. replace (Z.to_nat (Z.of_nat (length pairs) - 2)) with (length pairs - 2)%nat by lia.
    pose proof (take_drop (length pairs - 2) pairs) as Htd.
    assert (Hlen : length (drop (length pairs - 2) pairs) = 2%nat)
      by (rewrite length_drop; lia).
    destruct (drop (length pairs - 2) pairs) as [|x [|y [|z tl]]]; try done.
    exists x, y. split; [done|]. split; [lia|done].
Qed.

Lemma tryGetDomain_full_returns (v msg : string) : tryGetDomain v true ≠ Panic msg.
Proof.
  unfold tryGetDomain, tryGetDomain_body.
  destruct (url_Parse _) as [parse|]; go_step; [|done].
  destruct (isIP _); go_step; done.
Qed.

(** X1. The reduction to two labels panics exactly when the URL parses
    and its host is not an address and holds no dot; with [full] set
    [tryGetDomain] never panics. *)
Theorem tryGetDomain_panics_iff (v : string) :
  ((∃ msg, tryGetDomainOrIP v = Panic msg) ↔
   ∃ parse, url_Parse (parsed_text v) = Some parse ∧
            isIP (url.Hostname parse) = false ∧
            strings.Contains (url.Hostname parse) "." = false) ∧
  (∀ msg, tryGetDomain v true ≠ Panic msg).
Proof.
  unfold tryGetDomainOrIP, tryGetDomain, tryGetDomain_body, parsed_text. split.
  - destruct (url_Parse _) as [parse|]; go_step.
    2:{ split; [intros [msg [=]]|intros (parse & [=] & _)]. }
    destruct (isIP _) eqn:Hip; go_step.
    { split; [intros [msg [=]]|intros (p & [= <-] & Hp & _); congruence]. }
    destruct (Split_facts (url.Hostname parse) ".") as (_ & _ & Hdot); [done|].
    destruct (last_two_cases (strings.Split (url.Hostname parse) ".")) as
      [(msg & -> & Hlen)|(x & y & -> & Hlen & _)]; go_step.
    + split; [|eauto]. intros _. exists parse. split; [done|]. split; [done|].
      destruct (strings.Contains _ _) eqn:Hc; [|done].
      pose proof (proj2 Hdot eq_refl). lia.
    + split; [intros [msg [=]]|]. intros (p & [= <-] & _ & Hc).
      apply Hdot in Hlen. congruence.
  - intros msg. fold (tryGetDomain_body v true). apply tryGetDomain_full_returns.
Qed.

(** X2. When the reduction to two labels returns a domain, the value
    before trimming is a suffix of the host made of two labels without a
    dot, joined by one dot. *)
Theorem tryGetDomain_body_two_labels (v : string) (typ : t) (vv : string) :
  tryGetDomain_body v false = Ret (typ, vv) → typ = domain →
  ∃ parse pre x y,
    url_Parse (parsed_text v) = Some parse ∧
    url.Hostname parse = pre +:+ vv ∧
    vv = x +:+ "." +:+ y ∧
    strings.Contains x "." = false ∧ strings.Contains y "." = false.
Proof.
  unfold tryGetDomain_body, parsed_text.
  destruct (url_Parse _) as [parse|]; [|by intros [= <- _]].
  destruct (isIP _); [by intros [= <- _]|].
  destruct (Split_facts (url.Hostname parse) ".") as (HJ & HF & _); [done|].
  destruct (last_two_cases (strings.Split (url.Hostname parse) ".")) as
    [(msg & -> & _)|(x & y & -> & Hlen & Hsplit)]; go_step; [intros [=]|].
  intros [= <- <-] _.
  rewrite Hsplit in HF. apply Forall_app in HF as [_ HF].
  apply Forall_cons in HF as [Hx HF]. apply Forall_cons in HF as [Hy _].
  set (front := take (length (strings.Split (url.Hostname parse) ".") - 2)
                     (strings.Split (url.Hostname parse) ".")) in *.
  exists parse. clearbody front.
  destruct front as [|z front'].
  - exists "", x, y. rewrite Hsplit in HJ. cbn [app] in HJ. by rewrite <- HJ.
  - exists (strings.Join (z :: front') "." +:+ "."), x, y.
    rewrite Hsplit in HJ. rewrite Join_app in HJ by done.
    split; [done|]. split; [|done]. rewrite <- HJ. by rewrite !string_app_assoc.
Qed.

Lemma tryGetDomain_body_unknown v full vv :
  tryGetDomain_body v full = Ret (unknown, vv) → vv = "".
Proof.
  unfold tryGetDomain_body.
  destruct (url_Parse _) as [parse|]; [|by intros [= <-]].
  destruct (isIP _); [intros [=]|]. destruct full; [intros [=]|].
  destruct (last_two _); go_step; intros [=].
Qed.

(** What [tryGetDomain] returns is trimmed at both ends, and empty when
    the tag is [unknown]. *)
Lemma tryGetDomain_value v full typ vv :
  tryGetDomain v full = Ret (typ, vv) →
  strings.HasPrefix vv "*" = false ∧ strings.HasSuffix vv "*" = false ∧
  (typ = unknown → vv = "").
Proof.
  unfold tryGetDomain.
  destruct (tryGetDomain_body v full) as [[typ' vv']|] eqn:E; go_step; [|intros [=]].
  intros [= <- <-]. split; [apply Trim_no_star_prefix|]. split; [apply Trim_no_star_suffix|].
  intros ->. by rewrite (tryGetDomain_body_unknown _ _ _ E).
Qed.

(** X3. A value classified as [unknown] is empty, and a value classified
    as a domain neither starts nor ends with ["*"]. *)
Theorem parseLine_value_shape (line : string) (typ : t) (v : string) :
  parseLine line = Ret (typ, v) →
  (typ = unknown → v = "") ∧
  (typ = domain → strings.HasPrefix v "*" = false ∧ strings.HasSuffix v "*" = false).
Proof.
  unfold parseLine, tryGetDomainOrIP.
  destruct (strings.HasPrefix line "|"); [intros (?&?&?)%tryGetDomain_value; by auto|].
  destruct (_ || _); [intros (?&?&?)%tryGetDomain_value; by auto|].
  destruct (strings.HasPrefix line ".").
  { destruct (tryGetDomain _ false) as [[typ' v']|] eqn:E; go_step; [|intros [=]].
    apply tryGetDomain_value in E as (Hp & Hs & Hu). rewrite Hs.
    intros [= <- <-]. by auto. }
  destruct (strings.Contains line "."); [intros (?&?&?)%tryGetDomain_value; by auto|].
  destruct (isIP line); intros [= <- <-]; split; done.
Qed.

Lemma HasPrefix_bar_bar line :
  strings.HasPrefix line "||" = true → strings.HasPrefix line "|" = true.
Proof.
  unfold strings.HasPrefix. destruct line as [|a line]; cbn [String.prefix]; [done|].
  destruct (ascii_dec "|" a); [|intros [=]]. intros _. apply prefix_nil.
Qed.

(** X4. [parseLine] can panic only where it reduces the host to two
    labels: on a line that starts with ["http://"] or with ["."], never
    on a line that starts with ["|"]. *)
Theorem parseLine_panic_branches (line msg : string) :
  parseLine line = Panic msg →
  strings.HasPrefix line "|" = false ∧
  (strings.HasPrefix line "http://" = true ∨ strings.HasPrefix line "." = true).
Proof.
  unfold parseLine, tryGetDomainOrIP.
  destruct (strings.HasPrefix line "|") eqn:Hbar.
  { intros Hp. by apply tryGetDomain_full_returns in Hp. }
  destruct (strings.HasPrefix line "||") eqn:Hbb.
  { apply HasPrefix_bar_bar in Hbb. congruence. }
  cbn [orb]. destruct (strings.HasPrefix line "http://"); [by auto|].
  destruct (strings.HasPrefix line "."); [by auto|].
  destruct (strings.Contains line ".").
  { intros Hp. by apply tryGetDomain_full_returns in Hp. }
  destruct (isIP line); intros [=].
Qed.

End classifier_more.

Lemma parseLine_panic_branches_witness :
  @parseLine go_library ".localhost" = Panic "runtime error: slice bounds out of range" ∧
  strings.HasPrefix ".localhost" "|" = false ∧
  (strings.HasPrefix ".localhost" "http://" = true ∨ strings.HasPrefix ".localhost" "." = true).
Proof.
  assert (Hp : @parseLine go_library ".localhost"
                 = Panic "runtime error: slice bounds out of range")
    by (vm_compute; reflexivity).
  split; [exact Hp|]. exact (@parseLine_panic_branches go_library _ _ Hp).
Defined.

Lemma tryGetDomain_panics_iff_witness :
  ∃ msg, @tryGetDomainOrIP go_library "localhost" = Panic msg.
Proof.
  apply (proj2 (proj1 (@tryGetDomain_panics_iff go_library "localhost"))).
  eexists. split; [vm_compute; reflexivity|]. split; vm_compute; reflexivity.
Defined.

Lemma tryGetDomain_body_two_labels_witness :
  @tryGetDomain_body go_library "a.b.example.co.uk:8080/x" false = Ret (domain, "co.uk") ∧
  ∃ parse pre x y,
    @url_Parse go_library (@parsed_text go_library "a.b.example.co.uk:8080/x") = Some parse ∧
    url.Hostname parse = pre +:+ "co.uk" ∧
    "co.uk" = x +:+ "." +:+ y ∧
    strings.Contains x "." = false ∧ strings.Contains y "." = false.
Proof.
  assert (Hb : @tryGetDomain_body go_library "a.b.example.co.uk:8080/x" false
                 = Ret (domain, "co.uk")) by (vm_compute; reflexivity).
  split; [exact Hb|].
  exact (@tryGetDomain_body_two_labels go_library _ _ _ Hb eq_refl).
Defined.

Lemma parseLine_value_shape_witness :
  @parseLine go_library "|*.example.com*" = Ret (domain, ".example.com") ∧
  (domain = unknown → ".example.com" = "") ∧
  (domain = domain →
   strings.HasPrefix ".example.com" "*" = false ∧ strings.HasSuffix ".example.com" "*" = false).
Proof.
  assert (Hp : @parseLine go_library "|*.example.com*" = Ret (domain, ".example.com"))
    by (vm_compute; reflexivity).
  split; [exact Hp|]. exact (@parseLine_value_shape go_library _ _ _ Hp).
Defined.

Section bars.

Context `{GoLibrary}.

(** X5. Every leading ["|"] is trimmed, so a rule is classified the same
    with one bar, with two or with more. *)
Theorem parseLine_extra_bar (line : string) :
  strings.HasPrefix line "|" = true → parseLine ("|" +:+ line) = parseLine line.
Proof.
  intros Hbar. unfold parseLine. rewrite Hbar.
  change ("|" +:+ line) with (String "|" line).
  change (strings.HasPrefix (String "|" line) "|") with (String.prefix "" line).
  rewrite prefix_nil. by rewrite TrimLeft_skip.
Qed.

(** X6. After the bars, every leading byte among [h t p : /] is trimmed,
    not the text ["http://"]: a rule whose host starts with such a byte
    is classified as the rule without it. *)
Theorem parseLine_trims_cutset_bytes (c : ascii) (rest : string) :
  strings.ContainsByte "http://" c = true →
  strings.HasPrefix rest "|" = false →
  parseLine ("|" +:+ String c rest) = parseLine ("|" +:+ rest).
Proof.
  intros Hc Hrest. unfold parseLine.
  change ("|" +:+ String c rest) with (String "|" (String c rest)).
  change ("|" +:+ rest) with (String "|" rest).
  change (strings.HasPrefix (String "|" ?s) "|") with (String.prefix "" s).
  rewrite !prefix_nil.
  assert (Hbar : strings.ContainsByte "|" c = false).
  { rewrite ContainsByte_single. destruct (Ascii.eqb_spec "|" c) as [<-|]; [|done].
    vm_compute in Hc. done. }
  rewrite (TrimLeft_skip (String c rest) "|" "|") by done.
  rewrite (TrimLeft_skip rest "|" "|") by done.
  rewrite (TrimLeft_no_prefix rest) by done.
  rewrite (TrimLeft_stop rest "|" c) by done.
  by rewrite (TrimLeft_skip rest "http://" c).
Qed.

End bars.

Lemma parseLine_extra_bar_witness :
  @parseLine go_library "|||a.example.com" = @parseLine go_library "||a.example.com".
Proof. exact (@parseLine_extra_bar go_library "||a.example.com" eq_refl). Defined.

Lemma parseLine_trims_cutset_bytes_witness :
  @parseLine go_library "|twitter.com" = @parseLine go_library "|witter.com".
Proof. exact (@parseLine_trims_cutset_bytes go_library "t" "witter.com" eq_refl eq_refl). Defined.

(** ** The builder *)

Section builder_more.

Context `{GoLibrary}.

Ltac go_step := unfold mbind, go_bind, mret, go_ret; cbn beta iota.

Lemma elem_of_values typ cs v : v ∈ values typ cs ↔ (typ, v) ∈ cs.
Proof.
  unfold values. rewrite list_elem_of_fmap. split.
  - intros ([typ' v'] & -> & [Heq Hin]%list_elem_of_filter). simpl in Heq. by subst.
  - intros Hin. exists (typ, v). split; [done|]. by apply list_elem_of_filter.
Qed.

(** The classifications are those of the lines that are not skipped. *)
Lemma elem_of_classify_all lines cs c :
  classify_all lines = Ret cs →
  c ∈ cs ↔ ∃ line, line ∈ lines ∧ skipped line = false ∧ parseLine line = Ret c.
Proof.
  revert cs. induction lines as [|line lines IH]; intros cs; cbn [classify_all].
  - intros [= <-]. split; [intros ?%elem_of_nil; done|].
    intros (line & ?%elem_of_nil & _); done.
  - destruct (skipped line) eqn:Hs.
    { intros Hcs. rewrite (IH _ Hcs). split.
      - intros (l & Hl & ?). exists l. split; [by right|done].
      - intros (l & [->|Hl]%elem_of_cons & Hsk & ?); [congruence|]. eauto. }
    destruct (parseLine line) as [c0|] eqn:Hp; go_step; [|intros [=]].
    destruct (classify_all lines) as [cs'|]; go_step; [|intros [=]].
    intros [= <-]. rewrite elem_of_cons, (IH _ eq_refl). split.
    + intros [->|(l & Hl & ?)]; [exists line; split; [by left|done]|].
      exists l. split; [by right|done].
    + intros (l & [->|Hl]%elem_of_cons & Hsk & Hpl); [left; congruence|]. right. eauto.
Qed.

(** The loop panics exactly when some line that is not skipped does. *)
Lemma classify_all_panics lines :
  (∃ msg, classify_all lines = Panic msg) ↔
  ∃ line msg, line ∈ lines ∧ skipped line = false ∧ parseLine line = Panic msg.
Proof.
  induction lines as [|line lines IH]; cbn [classify_all].
  - split; [intros [msg [=]]|intros (l & msg & ?%elem_of_nil & _); done].
  - destruct (skipped line) eqn:Hs.
    { rewrite IH. split.
      - intros (l & msg & Hl & ?). exists l, msg. split; [by right|done].
      - intros (l & msg & [->|Hl]%elem_of_cons & Hsk & ?); [congruence|]. eauto. }
    destruct (parseLine line) as [c0|msg0] eqn:Hp; go_step.
    + destruct (classify_all lines) as [cs'|msg1]; go_step.
      * split; [intros [msg [=]]|].
        intros (l & msg & [->|Hl]%elem_of_cons & Hsk & Hpl); [congruence|].
        destruct (proj2 IH) as [m [=]]. eauto.
      * split; [|eauto]. intros _. destruct (proj1 IH) as (l & msg & Hl & ?); [eauto|].
        exists l, msg. split; [by right|done].
    + split; [|eauto]. intros _. exists line, msg0. split; [by left|done].
Qed.

(** X7. A line that is empty or starts with one of [! [ / @] has no
    effect on the buckets, wherever it stands in the document. *)
Theorem parseToList_loop_skips (lines domainList ipList domainKeywordList : list string) :
  parseToList_loop lines domainList ipList domainKeywordList =
  parseToList_loop (filter (λ line, skipped line = false) lines)
                   domainList ipList domainKeywordList.
Proof.
  revert domainList ipList domainKeywordList.
  induction lines as [|line lines IH]; intros d i k; [done|].
  rewrite filter_cons. cbn [parseToList_loop].
  destruct (skipped line) eqn:Hs.
  - rewrite decide_False by done. apply IH.
  - rewrite decide_True by done. cbn [parseToList_loop]. rewrite Hs.
    destruct (parseLine line) as [[typ v]|]; go_step; [|done].
    destruct typ; apply IH.
Qed.

(** X8. Parsing a document panics exactly when one of its lines that is
    not skipped makes [parseLine] panic: one such line ends the whole
    pass. *)
Theorem parseToList_panics_iff (rc : string) :
  (∃ msg, parseToList rc = Panic msg) ↔
  ∃ line msg, line ∈ (scan_lines rc).1 ∧ skipped line = false ∧ parseLine line = Panic msg.
Proof.
  rewrite <- classify_all_panics. unfold parseToList.
  destruct (scan_lines rc) as [lines e]. cbn [fst].
  rewrite parseToList_loop_values.
  destruct (classify_all lines) as [cs|msg]; go_step.
  - split; intros [m [=]].
  - split; eauto.
Qed.

(** X9. The buckets of a parsed document hold exactly the non-empty
    values that some line of the document was classified with: a value
    is among the domains (the addresses) when it is not empty and a line
    that is not skipped has it with the tag [domain] ([ip]). *)
Theorem parseToList_bucket_contents (rc : string) domains ips domainKeywords err (v : string) :
  parseToList rc = Ret (domains, ips, domainKeywords, err) →
  (v ∈ domains ↔
     v ≠ "" ∧ ∃ line, line ∈ (scan_lines rc).1 ∧ skipped line = false ∧
                      parseLine line = Ret (domain, v)) ∧
  (v ∈ ips ↔
     v ≠ "" ∧ ∃ line, line ∈ (scan_lines rc).1 ∧ skipped line = false ∧
                      parseLine line = Ret (ip, v)).
Proof.
  intros (cs & Hcs & -> & -> & _ & _)%parseToList_values.
  rewrite !elem_of_uniqueList, !elem_of_values, !(elem_of_classify_all _ _ _ Hcs).
  split; tauto.
Qed.

End builder_more.

Lemma parseToList_panics_iff_witness :
  ∃ msg, @parseToList go_library (strings.Join ["||a.com"; ".localhost"; "1.2.3.4"] LF)
         = Panic msg.
Proof.
  apply (proj2 (@parseToList_panics_iff go_library _)).
  exists ".localhost", "runtime error: slice bounds out of range".
  split; [|split; vm_compute; reflexivity].
  apply (bool_decide_unpack _). vm_compute. exact I.
Defined.

Lemma parseToList_bucket_contents_witness :
  "a.com" ∈ ["a.com"; "b.example.org"].
Proof.
  apply (proj2 (proj1 (@parseToList_bucket_contents go_library sample_document
                         ["a.com"; "b.example.org"] ["1.2.3.4"] [] None "a.com"
                         ltac:(vm_compute; reflexivity)))).
  split; [discriminate|]. exists ".ads.a.com".
  split; [|split; vm_compute; reflexivity].
  apply (bool_decide_unpack _). vm_compute. exact I.
Defined.

(** ** Deduplication and rendering *)

(** X10. [uniqueList] only drops entries: its result is a subsequence of
    its argument, with the entries of the argument that are not empty. *)
Theorem uniqueList_sublist (l : list string) :
  uniqueList l `sublist_of` l ∧
  (∀ v, v ∈ uniqueList l ↔ v ∈ l ∧ v ≠ "") ∧
  (length (uniqueList l) <= length l)%nat.
Proof.
  assert (Hsub : uniqueList l `sublist_of` l).
  { induction l as [|v l IH] using rev_ind; [done|].
    rewrite uniqueList_snoc. case_bool_decide.
    - by apply sublist_app.
    - rewrite app_nil_r. by apply sublist_inserts_r. }
  split; [done|]. split; [apply elem_of_uniqueList|by apply sublist_length].
Qed.

(** X11. Deduplicating a concatenation: the second part contributes its
    own first occurrences that the first part does not hold. *)
Theorem uniqueList_app (l1 l2 : list string) :
  uniqueList (l1 ++ l2) = uniqueList l1 ++ filter (λ v, v ∉ l1) (uniqueList l2).
Proof.
  induction l2 as [|v l2 IH] using rev_ind.
  - by rewrite !app_nil_r.
  - rewrite app_assoc, !uniqueList_snoc, IH, filter_app, <- app_assoc. f_equal. f_equal.
    destruct (decide (v ≠ "" ∧ v ∉ l2)) as [[Hne Hl2]|Hno].
    + rewrite (bool_decide_eq_true_2 (v ≠ "" ∧ v ∉ l2)) by done.
      rewrite filter_cons, filter_nil.
      destruct (decide (v ∉ l1)) as [Hl1|Hl1].
      * rewrite bool_decide_eq_true_2; [done|]. split; [done|].
        rewrite elem_of_app. tauto.
      * rewrite bool_decide_eq_false_2; [done|]. rewrite elem_of_app. tauto.
    + rewrite (bool_decide_eq_false_2 (v ≠ "" ∧ v ∉ l2)) by done.
      rewrite filter_nil, bool_decide_eq_false_2; [done|].
      rewrite elem_of_app. tauto.
Qed.

Section render_facts.

Implicit Types (l k : list string) (P : string → Prop).

Lemma string_length_app (s r : string) :
  String.length (s +:+ r) = (String.length s + String.length r)%nat.
Proof.
  induction s as [|a s IH]; [done|].
  change (String a s +:+ r) with (String a (s +:+ r)). simpl. by rewrite IH.
Qed.

Lemma string_app_inv_r (s1 s2 r : string) : s1 +:+ r = s2 +:+ r → s1 = s2.
Proof.
  revert s2. induction s1 as [|a s1 IH]; intros [|b s2] Heq; [done| | |].
  - apply (f_equal String.length) in Heq.
    change (String b s2 +:+ r) with (String b (s2 +:+ r)) in Heq.
    change ("" +:+ r) with r in Heq. simpl in Heq. rewrite string_length_app in Heq. lia.
  - apply (f_equal String.length) in Heq.
    change (String a s1 +:+ r) with (String a (s1 +:+ r)) in Heq.
    change ("" +:+ r) with r in Heq. simpl in Heq. rewrite string_length_app in Heq. lia.
  - change (String a (s1 +:+ r) = String b (s2 +:+ r)) in Heq.
    injection Heq as -> Heq. f_equal. by apply IH.
Qed.

(** Two lists that each are a block of entries with [P] followed by a
    block of entries without [P] are equal block by block. *)
Lemma app_blocks_inv P l1 l2 k1 k2 :
  Forall P l1 → Forall P l2 → Forall (λ x, ¬ P x) k1 → Forall (λ x, ¬ P x) k2 →
  l1 ++ k1 = l2 ++ k2 → l1 = l2 ∧ k1 = k2.
Proof.
  revert l2. induction l1 as [|x l1 IH]; intros [|y l2] H1 H2 Hk1 Hk2 Heq.
  - done.
  - cbn [app] in Heq. subst k1. apply Forall_cons in Hk1 as [Hy _].
    apply Forall_cons in H2 as [Hy' _]. done.
  - cbn [app] in Heq. subst k2. apply Forall_cons in Hk2 as [Hx _].
    apply Forall_cons in H1 as [Hx' _]. done.
  - injection Heq as -> Heq. apply Forall_cons in H1 as [_ H1].
    apply Forall_cons in H2 as [_ H2].
    destruct (IH l2 H1 H2 Hk1 Hk2 Heq) as [-> ->]. done.
Qed.

Lemma HasPrefix_app (pre v : string) : strings.HasPrefix (pre +:+ v) pre = true.
Proof.
  unfold strings.HasPrefix. induction pre as [|a pre IH]; [apply prefix_nil|].
  change (String a pre +:+ v) with (String a (pre +:+ v)). cbn [String.prefix].
  by destruct (ascii_dec a a).
Qed.

Lemma fmap_app_inj (pre : string) l k :
  (λ v, pre +:+ v) <$> l = (λ v, pre +:+ v) <$> k → l = k.
Proof.
  revert k. induction l as [|x l IH]; intros [|y k] Heq; try done.
  injection Heq as Hx Heq. apply (inj (String.app pre)) in Hx. subst.
  f_equal. by apply IH.
Qed.

End render_facts.

(** X12. Rendering loses nothing: two rule sets that render to the same
    lines have the same domains, the same addresses and the same
    keywords, in the same order. *)
Theorem renderClashRules_inj (d1 i1 k1 d2 i2 k2 : list string) :
  renderClashRules d1 i1 k1 = renderClashRules d2 i2 k2 →
  d1 = d2 ∧ i1 = i2 ∧ k1 = k2.
Proof.
  rewrite !renderClashRules_blocks. intros Heq.
  apply (app_blocks_inv (λ r, strings.HasPrefix r "DOMAIN-KEYWORD," = true)) in Heq
    as [Hk Heq].
  2,3: apply Forall_fmap, Forall_true; intros v; apply HasPrefix_app.
  2,3: apply Forall_app; split; apply Forall_fmap, Forall_true; intros v Hv;
       vm_compute in Hv; discriminate.
  apply (app_blocks_inv (λ r, strings.HasPrefix r "SRC-IP-CIDR," = true)) in Heq
    as [Hi Hd].
  2,3: apply Forall_fmap, Forall_true; intros v;
       apply (HasPrefix_app "SRC-IP-CIDR," (v +:+ "/32")).
  2,3: apply Forall_fmap, Forall_true; intros v Hv; vm_compute in Hv; discriminate.
  apply fmap_app_inj in Hk, Hd. split; [done|]. split; [|done].
  clear -Hi. revert i2 Hi. induction i1 as [|x i1 IH]; intros [|y i2] Hi; try done.
  injection Hi as Hx Hi. change (x +:+ "/32" = y +:+ "/32") in Hx.
  apply string_app_inv_r in Hx. subst. f_equal. by apply IH.
Qed.

Lemma renderClashRules_inj_witness :
  ["a.com"] = ["a.com"] ∧ ["1.2.3.4"] = ["1.2.3.4"] ∧ ([] : list string) = [].
Proof.
  exact (renderClashRules_inj ["a.com"] ["1.2.3.4"] [] ["a.com"] ["1.2.3.4"] [] eq_refl).
Defined.

(** ** The refresh cycle: success, panic and the loop *)

Section cycle_more.

Context `{GoLibrary}.

Ltac go_step := unfold mbind, go_bind, mret, go_ret; cbn beta iota.

Lemma download_ok get rc :
  download get = inl rc ↔
  ∃ resp, get gfwlistDownloadURL = inl resp ∧ StatusCode resp = 200 ∧ rc = Body resp.
Proof.
  unfold download. destruct (get gfwlistDownloadURL) as [resp|e].
  - destruct (Z.eqb_spec (StatusCode resp) 200) as [Hc|Hc]; cbn [negb].
    + split; [intros [= <-]; eauto|]. by intros (r & [= <-] & _ & ->).
    + split; [intros [=]|]. intros (r & [= <-] & ? & _). done.
  - split; [intros [=]|]. intros (r & [=] & _).
Qed.

(** X13. A cycle succeeds exactly when the response has status 200, its
    body parses without an error of the scanner and the rendering
    marshals; the provider then keeps its interval and serves the new
    document, which does not depend on the document served before. *)
Theorem update_success_iff (get : http_Get) (s s' : gfwlistProvider) :
  (update get s = Ret (s', None) ↔
   ∃ resp domains ips domainKeywords b,
     get gfwlistDownloadURL = inl resp ∧ StatusCode resp = 200 ∧
     parseToList (Body resp) = Ret (domains, ips, domainKeywords, None) ∧
     yaml_Marshal (renderClashRules domains ips domainKeywords) = inl b ∧
     s' = mkProvider (interval s) b) ∧
  (update get s = Ret (s', None) →
   ∀ s0, update get s0 = Ret (mkProvider (interval s0) (Handle s'), None)).
Proof.
  assert (Hiff : ∀ s1 s2, update get s1 = Ret (s2, None) ↔
   ∃ resp domains ips domainKeywords b,
     get gfwlistDownloadURL = inl resp ∧ StatusCode resp = 200 ∧
     parseToList (Body resp) = Ret (domains, ips, domainKeywords, None) ∧
     yaml_Marshal (renderClashRules domains ips domainKeywords) = inl b ∧
     s2 = mkProvider (interval s1) b).
  { intros s1 s2. unfold update. destruct (download get) as [rc|e] eqn:Hd.
    - apply download_ok in Hd as (resp & Hget & Hcode & ->).
      destruct (parseToList (Body resp)) as [[[[d i] k] [e|]]|] eqn:Hp; go_step.
      + split; [intros [=]|]. intros (r & ? & ? & ? & ? & Hg & _ & [=] & _).
        rewrite Hget in Hg. injection Hg as <-. congruence.
      + destruct (yaml_Marshal (renderClashRules d i k)) as [b|e] eqn:Hm.
        * split.
          -- intros [= <-]. exists resp, d, i, k, b. done.
          -- intros (r & d' & i' & k' & b' & Hg & _ & Hp' & Hm' & ->).
             rewrite Hget in Hg. injection Hg as <-. rewrite Hp in Hp'.
             injection Hp' as <- <- <-. rewrite Hm in Hm'. by injection Hm' as <-.
        * split; [intros [=]|].
          intros (r & d' & i' & k' & b' & Hg & _ & Hp' & Hm' & _).
          rewrite Hget in Hg. injection Hg as <-. rewrite Hp in Hp'.
          injection Hp' as <- <- <-. rewrite Hm in Hm'. done.
      + split; [intros [=]|]. intros (r & ? & ? & ? & ? & Hg & _ & Hp' & _).
        rewrite Hget in Hg. injection Hg as <-. congruence.
    - split; [intros [=]|]. intros (r & ? & ? & ? & ? & Hg & Hc & _).
      assert (download get = inl (Body r)) as Hd' by (apply download_ok; eauto).
      congruence. }
  split; [apply Hiff|].
  intros (resp & d & i & k & b & Hget & Hc & Hp & Hm & ->)%Hiff s0.
  apply Hiff. exists resp, d, i, k, b. done.
Qed.

(** X14. A cycle panics exactly when the response has status 200 and
    parsing its body panics. *)
Theorem update_panics_iff (get : http_Get) (s : gfwlistProvider) (msg : string) :
  update get s = Panic msg ↔
  ∃ resp, get gfwlistDownloadURL = inl resp ∧ StatusCode resp = 200 ∧
          parseToList (Body resp) = Panic msg.
Proof.
  unfold update. destruct (download get) as [rc|e] eqn:Hd.
  - apply download_ok in Hd as (resp & Hget & Hcode & ->).
    destruct (parseToList (Body resp)) as [[[[d i] k] [e|]]|] eqn:Hp; go_step.
    + split; [intros [=]|]. intros (r & Hg & _ & Hp'). rewrite Hget in Hg.
      injection Hg as <-. congruence.
    + split; [destruct (yaml_Marshal _); intros [=]|].
      intros (r & Hg & _ & Hp'). rewrite Hget in Hg. injection Hg as <-. congruence.
    + split; [intros [= <-]; eauto|].
      intros (r & Hg & _ & Hp'). rewrite Hget in Hg. injection Hg as <-. congruence.
  - split; [intros [=]|]. intros (r & Hg & Hc & _).
    assert (download get = inl (Body r)) as Hd' by (apply download_ok; eauto).
    congruence.
Qed.

Lemma start_update_failed get s s' ev :
  start_update get s = Ret (s', ev) → ev ≠ LogSuccess → s' = s.
Proof.
  unfold start_update.
  destruct (update get s) as [[s1 [e|]]|] eqn:E; go_step; intros [= <- <-]; [|done].
  intros _. by eapply update_error.
Qed.

Lemma start_loop_state d ticks s trace s' trace' :
  start_loop d ticks s trace = Ret (s', trace') →
  ∃ evs, trace' = trace ++ evs ∧
    interval s' = interval s ∧
    (LogSuccess ∉ evs → s' = s).
Proof.
  revert s trace. induction ticks as [|get ticks IH]; intros s trace; cbn [start_loop].
  - intros [= <- <-]. exists []. by rewrite app_nil_r.
  - destruct (start_update get s) as [[s1 ev]|] eqn:E; go_step; [|intros [=]].
    intros (evs & -> & Hi & Hs)%IH.
    exists ([ev; TimerReset d] ++ evs). split; [by rewrite <- app_assoc|].
    split; [rewrite Hi; by apply start_update_interval in E as [? _]|].
    intros Hno. rewrite Hs.
    + apply (start_update_failed _ _ _ _ E). intros ->. apply Hno. by left.
    + intros Hin. apply Hno. right. by right.
Qed.

(** X15. The loop never changes the interval, and as long as no cycle
    logs a success the provider, and so the document served, is the one
    it started with. *)
Theorem start_keeps_document (first : http_Get) (ticks : list http_Get)
    (s s' : gfwlistProvider) (trace : list event) :
  start first ticks s = Ret (s', trace) →
  interval s' = interval s ∧
  (LogSuccess ∉ trace → s' = s ∧ Handle s' = Handle s).
Proof.
  unfold start.
  destruct (start_update first s) as [[s1 ev]|] eqn:E; go_step; [|intros [=]].
  intros (evs & -> & Hi & Hs)%start_loop_state.
  split; [rewrite Hi; by apply start_update_interval in E as [? _]|].
  intros Hno. assert (s' = s) as ->; [|done]. rewrite Hs.
  - apply (start_update_failed _ _ _ _ E). intros ->. apply Hno. by left.
  - intros Hin. apply Hno. right. by right.
Qed.

(** X16. The provider that [newGfwlistProvider] builds has no interval
    set and no document: it serves the empty document until a cycle
    succeeds, and its loop arms the timer with one hour every time. *)
Theorem newGfwlistProvider_hourly (first : http_Get) (ticks : list http_Get)
    (s' : gfwlistProvider) (trace : list event) :
  start first ticks newGfwlistProvider = Ret (s', trace) →
  timer_durations trace = replicate (S (length ticks)) 3600000000000 ∧
  Handle newGfwlistProvider = "" ∧
  (LogSuccess ∉ trace → Handle s' = "").
Proof.
  unfold start.
  destruct (start_update first newGfwlistProvider) as [[s1 ev]|] eqn:E; go_step;
    [|intros [=]].
  pose proof E as [Hi Hev]%start_update_interval.
  rewrite Hi. cbn [interval newGfwlistProvider Z.leb Z.compare].
  intros Hl. split; [|split; [done|]].
  - apply start_loop_trace in Hl. rewrite Hl.
    change [ev; NewTimer ?d] with ([ev] ++ [NewTimer d]).
    unfold timer_durations in *. by rewrite omap_app, Hev.
  - apply start_loop_state in Hl as (evs & -> & _ & Hs). intros Hno.
    rewrite Hs; [|intros Hin; apply Hno; right; by right].
    rewrite (start_update_failed _ _ _ _ E); [done|]. intros ->. apply Hno. by left.
Qed.

End cycle_more.

Lemma update_success_iff_witness :
  @update go_library (responds 200 sample_document) published
  = Ret (mkProvider 0 (strings.Join ["SRC-IP-CIDR,1.2.3.4/32"; "DOMAIN-SUFFIX,a.com";
                                     "DOMAIN-SUFFIX,b.example.org"] LF), None).
Proof.
  apply (proj2 (proj1 (@update_success_iff go_library (responds 200 sample_document)
                         published _))).
  exists (mkResponse 200 sample_document), ["a.com"; "b.example.org"], ["1.2.3.4"], [],
    (strings.Join ["SRC-IP-CIDR,1.2.3.4/32"; "DOMAIN-SUFFIX,a.com";
                   "DOMAIN-SUFFIX,b.example.org"] LF).
  repeat split; vm_compute; reflexivity.
Defined.

Lemma update_panics_iff_witness :
  @update go_library (responds 200 ".localhost") published
  = Panic "runtime error: slice bounds out of range".
Proof.
  apply (proj2 (@update_panics_iff go_library (responds 200 ".localhost") published _)).
  exists (mkResponse 200 ".localhost"). repeat split; vm_compute; reflexivity.
Defined.

Lemma start_keeps_document_witness :
  @start go_library unreachable [responds 404 "gone"] published
  = Ret (published,
         [LogFailed (wrapError "dial tcp: connection refused"
                               (errorString "dial tcp: connection refused"));
          NewTimer 3600000000000;
          LogFailed (errorString "download gfwlist failed, code: 404, body: gone");
          TimerReset 3600000000000]) ∧
  published = published ∧ Handle published = Handle published.
Proof.
  assert (E : @start go_library unreachable [responds 404 "gone"] published
    = Ret (published,
         [LogFailed (wrapError "dial tcp: connection refused"
                               (errorString "dial tcp: connection refused"));
          NewTimer 3600000000000;
          LogFailed (errorString "download gfwlist failed, code: 404, body: gone");
          TimerReset 3600000000000])) by (vm_compute; reflexivity).
  split; [exact E|].
  apply (proj2 (@start_keeps_document go_library _ _ _ _ _ E)).
  intros Hin. repeat (apply elem_of_cons in Hin as [Hin|Hin]; [discriminate|]).
  by apply elem_of_nil in Hin.
Defined.

Lemma newGfwlistProvider_hourly_witness :
  ∃ s' trace,
    @start go_library (responds 200 sample_document) [unreachable; unreachable]
           newGfwlistProvider = Ret (s', trace) ∧
    timer_durations trace = [3600000000000; 3600000000000; 3600000000000].
Proof.
  destruct (@start go_library (responds 200 sample_document) [unreachable; unreachable]
              newGfwlistProvider) as [[s' trace]|] eqn:E; [|vm_compute in E; discriminate].
  exists s', trace. split; [reflexivity|].
  exact (proj1 (@newGfwlistProvider_hourly go_library _ _ _ _ E)).
Defined.

(** ** The other branches of the classifier *)

Section branches.

Context `{GoLibrary}.

Lemma TrimLeft_http_bar (s : string) :
  strings.TrimLeft ("http://" +:+ s) "|" = "http://" +:+ s.
Proof. reflexivity. Qed.

Lemma TrimLeft_http_scheme (s : string) :
  strings.TrimLeft ("http://" +:+ s) "http://" = strings.TrimLeft s "http://".
Proof. reflexivity. Qed.

Lemma HasPrefix_http (s : string) : strings.HasPrefix ("http://" +:+ s) "http://" = true.
Proof. apply HasPrefix_app. Qed.

(** X17. On a line that starts with ["http://"] the bytes [h t p : /]
    that follow the scheme are trimmed with it: the line is classified
    as the line without such a byte after the scheme. *)
Theorem parseLine_http_trims_cutset_bytes (c : ascii) (rest : string) :
  strings.ContainsByte "http://" c = true →
  parseLine ("http://" +:+ String c rest) = parseLine ("http://" +:+ rest).
Proof.
  intros Hc. unfold parseLine.
  change (strings.HasPrefix ("http://" +:+ ?s) "|") with false.
  change (strings.HasPrefix ("http://" +:+ ?s) "||") with false.
  rewrite !HasPrefix_http. cbn [orb].
  rewrite !TrimLeft_http_bar, !TrimLeft_http_scheme.
  by rewrite (TrimLeft_skip rest "http://" c).
Qed.

(** X18. Every leading ["."] is trimmed: a line that starts with a dot is
    classified the same with one more dot in front. *)
Theorem parseLine_extra_dot (line : string) :
  strings.HasPrefix line "." = true → parseLine ("." +:+ line) = parseLine line.
Proof.
  intros Hdot. apply HasPrefix_byte in Hdot as [r ->]. unfold parseLine.
  change (strings.HasPrefix ("." +:+ ?s) "|") with false.
  change (strings.HasPrefix (String "." ?s) "|") with false.
  change (strings.HasPrefix ("." +:+ ?s) "||") with false.
  change (strings.HasPrefix (String "." ?s) "||") with false.
  change (strings.HasPrefix ("." +:+ ?s) "http://") with false.
  change (strings.HasPrefix (String "." ?s) "http://") with false.
  cbn [orb].
  change (strings.HasPrefix ("." +:+ String "." r) ".") with (String.prefix "" (String "." r)).
  change (strings.HasPrefix (String "." r) ".") with (String.prefix "" r).
  rewrite !prefix_nil.
  change ("." +:+ String "." r) with (String "." (String "." r)).
  by rewrite (TrimLeft_skip (String "." r) "." ".").
Qed.

End branches.

Lemma parseLine_http_trims_cutset_bytes_witness :
  @parseLine go_library "http://testing.example.com/"
  = @parseLine go_library "http://esting.example.com/".
Proof.
  exact (@parseLine_http_trims_cutset_bytes go_library "t" "esting.example.com/" eq_refl).
Defined.

Lemma parseLine_extra_dot_witness :
  @parseLine go_library "..example.com" = @parseLine go_library ".example.com".
Proof. exact (@parseLine_extra_dot go_library ".example.com" eq_refl). Defined.

(** ** A failing scanner and a line that panics *)

(** C2. A cycle whose scanner reports an error does not return that
    error when one of the lines the scanner has delivered makes
    [parseLine] panic: the cycle panics instead. The scanner hands out
    the decoded lines, the unterminated rest included, before [Err()] is
    read. *)
Theorem update_scan_error_panics `{GoLibrary} (get : http_Get) (s : gfwlistProvider)
    (resp : Response) (lines : list string) (err : error) (line msg : string) :
  get gfwlistDownloadURL = inl resp → StatusCode resp = 200 →
  scan_lines (Body resp) = (lines, Some err) →
  line ∈ lines → skipped line = false → parseLine line = Panic msg →
  (∃ msg', update get s = Panic msg') ∧
  (∀ s', update get s ≠ Ret (s', Some err)).
Proof.
  intros Hget Hcode Hscan Hin Hsk Hp.
  destruct (proj2 (classify_all_panics lines)) as [msg' Hmsg]; [by eauto|].
  assert (Hu : update get s = Panic msg').
  { unfold update. rewrite (proj2 (download_ok get (Body resp))) by eauto.
    unfold parseToList. rewrite Hscan, parseToList_loop_values, Hmsg. reflexivity. }
  split; [by eauto|]. intros s'. rewrite Hu. discriminate.
Qed.

(** The scanner of [library_with] delivers the lines of the body as they
    are; the body ["LmZv"] followed by bytes outside the base64 alphabet
    makes the scanner of the program deliver the line [".fo"] and report
    the corrupt input. *)
Lemma update_scan_error_panics_witness :
  (∃ msg', @update (library_with (Some scan_error) None) (responds 200 ".fo") published
           = Panic msg') ∧
  (∀ s', @update (library_with (Some scan_error) None) (responds 200 ".fo") published
         ≠ Ret (s', Some scan_error)).
Proof.
  refine (@update_scan_error_panics (library_with (Some scan_error) None)
            (responds 200 ".fo") published (mkResponse 200 ".fo") [".fo"] scan_error ".fo"
            "runtime error: slice bounds out of range" eq_refl eq_refl eq_refl _ eq_refl _).
  - apply (bool_decide_unpack _). vm_compute. exact I.
  - vm_compute. reflexivity.
Defined.
